(** * AIM_Sharing: the accounting mind-map of [app.py]

    A shallow embedding of the roll-up callback [update_graph_and_totals]
    of [src/app.py] and of the module-level data it reads, followed by the
    properties of the aggregation engine.

    Conventions of the embedding.
    - Python [int] is [Z]; the slider values the callback receives are
      integers (min 0, max 200000, step 1000).
    - A Python [dict] is an association list in insertion order with
      unique keys ([dict_set] updates in place or appends, as Python does).
    - A raised exception is [Raise e]; [Timeout] is the embedding's own
      outcome for a recursion that has used up its fuel.
    - The true division [v / max_val] is the exact rational quotient in
      [Q]; Python rounds that quotient to the nearest double.
    - Mutable objects (the stylesheet list and its rule dicts) live in a
      heap of objects addressed by location, so that the copy
      [stylesheet[:]] and the calls of [append] are modelled with their
      aliasing. *)

From Stdlib Require Import String Ascii ZArith QArith List Bool Lia.
From Stdlib Require Import ListSet Sorted.
Import ListNotations.

Open Scope string_scope.
Open Scope Z_scope.

(** ** Python values: exceptions, outcomes, dicts *)

(** An exception instance: its class name and its arguments. *)
Record exn := mk_exn { exn_class : string; exn_args : list string }.

Definition KeyError (key : string) : exn := mk_exn "KeyError" [key].
Definition ValueError (msg : string) : exn := mk_exn "ValueError" [msg].
Definition ZeroDivisionError : exn := mk_exn "ZeroDivisionError" ["division by zero"].
Definition TypeError (msg : string) : exn := mk_exn "TypeError" [msg].

Inductive outcome (A : Type) : Type :=
| Ret (a : A)
| Raise (e : exn)
| Timeout.

Arguments Ret {A} a.
Arguments Raise {A} e.
Arguments Timeout {A}.

Definition obind {A B : Type} (m : outcome A) (k : A -> outcome B) : outcome B :=
  match m with
  | Ret a => k a
  | Raise e => Raise e
  | Timeout => Timeout
  end.

Declare Scope outcome_scope.
Delimit Scope outcome_scope with outcome.
Notation "'let?' x ':=' m 'in' k" := (obind m (fun x => k))
  (at level 10, x name, m at level 100, k at level 200) : outcome_scope.
Open Scope outcome_scope.

Definition dict (V : Type) : Type := list (string * V).

Section Dict.
Context {V : Type}.

(** [d.get(k)] *)
Fixpoint dict_get (k : string) (d : dict V) : option V :=
  match d with
  | [] => None
  | (k', v) :: d' => if String.eqb k k' then Some v else dict_get k d'
  end.

(** [k in d] *)
Definition dict_mem (k : string) (d : dict V) : bool :=
  match dict_get k d with Some _ => true | None => false end.

(** [d[k]], which raises [KeyError(k)] when the key is absent *)
Definition dict_getitem (k : string) (d : dict V) : outcome V :=
  match dict_get k d with Some v => Ret v | None => Raise (KeyError k) end.

(** [d[k] = v]: an existing key keeps its position, a new one goes last *)
Fixpoint dict_set (k : string) (v : V) (d : dict V) : dict V :=
  match d with
  | [] => [(k, v)]
  | (k', v') :: d' =>
      if String.eqb k k' then (k', v) :: d' else (k', v') :: dict_set k v d'
  end.

Definition dict_keys (d : dict V) : list string := map fst d.
Definition dict_values (d : dict V) : list V := map snd d.

(** [dict(pairs)] *)
Definition dict_of_pairs (pairs : list (string * V)) : dict V :=
  fold_left (fun d kv => dict_set (fst kv) (snd kv) d) pairs [].

(** [{**a, **b}] *)
Definition dict_merge (a b : dict V) : dict V :=
  fold_left (fun d kv => dict_set (fst kv) (snd kv) d) b a.
End Dict.

(** ** 1. Data model (lines 14-49) *)

Definition LEAF_NODES : dict Z :=
  [ ("Cash", 10000); ("AR", 12000); ("Inventory", 8000); ("PPE", 40000);
    ("Intangibles", 5000);
    ("AP", 7000); ("NotesPayable", 6000); ("LongTermDebt", 20000);
    ("OperatingIncome", 15000); ("NonOperatingIncome", 3000);
    ("COGS", 9000); ("SGA", 4000); ("Depreciation", 2000); ("InterestExp", 1000) ].

Definition TREE : dict (list string) :=
  [ ("CurrentAssets", ["Cash"; "AR"; "Inventory"]);
    ("NonCurrentAssets", ["PPE"; "Intangibles"]);
    ("Assets", ["CurrentAssets"; "NonCurrentAssets"]);
    ("CurrentLiabilities", ["AP"; "NotesPayable"]);
    ("NonCurrentLiabilities", ["LongTermDebt"]);
    ("Liabilities", ["CurrentLiabilities"; "NonCurrentLiabilities"]);
    ("Income", ["OperatingIncome"; "NonOperatingIncome"]);
    ("Expenses", ["COGS"; "SGA"; "Depreciation"; "InterestExp"]) ].

Definition ROOTS : list string := ["Assets"; "Liabilities"; "Income"; "Expenses"].

(** ** Module-level names derived from the data model (lines 76 and 116) *)

(** [sorted] on strings: insertion sort by code-point order *)
Fixpoint insert_sorted (x : string) (l : list string) : list string :=
  match l with
  | [] => [x]
  | y :: l' => if String.leb x y then x :: l else y :: insert_sorted x l'
  end.

Definition sorted (l : list string) : list string :=
  fold_right insert_sorted [] l.

(** [set(LEAF_NODES) | set(TREE) | {"Equity", "Equation"}] *)
Definition all_nodes_of (leaf_nodes : dict Z) (tree : dict (list string)) : set string :=
  set_union string_dec
    (set_union string_dec
       (fold_right (set_add string_dec) (empty_set string) (dict_keys leaf_nodes))
       (fold_right (set_add string_dec) (empty_set string) (dict_keys tree)))
    (set_add string_dec "Equity" (set_add string_dec "Equation" (empty_set string))).

(** [sorted(all_nodes - LEAF_NODES.keys() - {"Equation"})] *)
Definition computed_nodes_of (leaf_nodes : dict Z) (tree : dict (list string))
  : list string :=
  sorted
    (set_diff string_dec
       (set_diff string_dec (all_nodes_of leaf_nodes tree) (dict_keys leaf_nodes))
       ["Equation"]).

Definition all_nodes : set string := all_nodes_of LEAF_NODES TREE.
Definition computed_nodes : list string := computed_nodes_of LEAF_NODES TREE.

(** ** The roll-up of the callback (lines 184-205) *)

(** [seq[-n:]]: the last [n] items, or all of them when there are fewer;
    [-0] is [0], so [seq[-0:]] is the whole sequence. *)
Definition slice_last {A : Type} (n : nat) (l : list A) : list A :=
  match n with
  | O => l
  | S _ => skipn (length l - n) l
  end.

(** [sum(...)] over a generator: left to right from 0, the first
    exception ends the iteration. *)
Fixpoint py_sum (acc : Z) (items : list (outcome Z)) : outcome Z :=
  match items with
  | [] => Ret acc
  | x :: rest => let? v := x in py_sum (acc + v) rest
  end.

(** [max(values)] of a list *)
Definition py_max (values : list Z) : outcome Z :=
  match values with
  | [] => Raise (ValueError "max() arg is an empty sequence")
  | x :: rest => Ret (fold_left Z.max rest x)
  end.

(** [m or 1] on an integer: 0 is the only falsy one *)
Definition or_1 (m : Z) : Z := if m =? 0 then 1 else m.

(** [v / max_val] on integers, as the exact quotient. Python rounds it to
    a double and raises [OverflowError] for a quotient beyond the range of
    a double (about 1.8e308); that failure is not modelled. *)
Definition truediv (v max_val : Z) : outcome Q :=
  if max_val =? 0 then Raise ZeroDivisionError
  else Ret (inject_Z v / inject_Z max_val)%Q.

Section Callback.
(** The globals the closure reads, and the snapshot [leaf_vals]. *)
Variable leaf_nodes : dict Z.
Variable tree : dict (list string).
Variable nodes : list string.
Variable leaf_vals : dict Z.

(** [total] (lines 187-198); each call uses one unit of fuel. *)
Fixpoint total (fuel : nat) (node : string) : outcome Z :=
  match fuel with
  | O => Timeout
  | S fuel' =>
      if dict_mem node leaf_nodes then dict_getitem node leaf_vals
      else
        match dict_get node tree with
        | Some kids => py_sum 0 (map (total fuel') kids)
        | None =>
            if String.eqb node "Equity" then
              let? assets := total fuel' "Assets" in
              let? liabilities := total fuel' "Liabilities" in
              let? income := total fuel' "Income" in
              let? expenses := total fuel' "Expenses" in
              Ret (assets + income - expenses - liabilities)
            else Ret 0
        end
  end.

(** [{nid: total(nid) for nid in computed_nodes}] (line 201) *)
Fixpoint dict_comp (fuel : nat) (keys : list string) (acc : dict Z)
  : outcome (dict Z) :=
  match keys with
  | [] => Ret acc
  | nid :: keys' =>
      let? v := total fuel nid in dict_comp fuel keys' (dict_set nid v acc)
  end.

Definition computed_vals (fuel : nat) : outcome (dict Z) :=
  dict_comp fuel nodes [].

(** Lines 204-205 *)
Definition all_values (cv : dict Z) : list Z :=
  dict_values leaf_vals ++ dict_values cv.

Definition max_val (cv : dict Z) : outcome Z :=
  let? m := py_max (all_values cv) in Ret (or_1 m).
End Callback.

(** ** The heap of mutable objects

    The stylesheet of the [Cytoscape] component is a list object whose
    items are references to rule dicts. *)

Definition loc : Type := nat.

Inductive style_val : Type :=
| SStr (s : string)     (* a string literal *)
| SNum (q : Q)          (* a number literal *)
| SPx (size : Q).       (* the f-string [f"{size:.0f}px"] of a size *)

Inductive obj : Type :=
| ORule (selector : string) (style : dict style_val)
| OList (items : list loc).

(** The interpreter state: the module globals and the heap. *)
Record world : Type := mk_world {
  g_LEAF_NODES : dict Z;
  g_TREE : dict (list string);
  g_ROOTS : list string;
  g_computed_nodes : list string;
  g_stylesheet : loc;     (* [graph_panel.children[0].stylesheet] *)
  heap : list obj
}.

Definition set_heap (h : list obj) (w : world) : world :=
  mk_world (g_LEAF_NODES w) (g_TREE w) (g_ROOTS w) (g_computed_nodes w)
           (g_stylesheet w) h.

Definition M (A : Type) : Type := world -> world * outcome A.

Definition mret {A : Type} (a : A) : M A := fun w => (w, Ret a).

Definition mbind {A B : Type} (m : M A) (k : A -> M B) : M B :=
  fun w =>
    match m w with
    | (w', Ret a) => k a w'
    | (w', Raise e) => (w', Raise e)
    | (w', Timeout) => (w', Timeout)
    end.

Definition lift {A : Type} (o : outcome A) : M A := fun w => (w, o).

Declare Scope heap_scope.
Delimit Scope heap_scope with heap.
Notation "'let!' x ':=' m 'in' k" := (mbind m (fun x => k))
  (at level 10, x name, m at level 100, k at level 200) : heap_scope.
Open Scope heap_scope.

Fixpoint list_update {A : Type} (n : nat) (x : A) (l : list A) : list A :=
  match l, n with
  | [], _ => []
  | _ :: l', O => x :: l'
  | y :: l', S n' => y :: list_update n' x l'
  end.

(** A new object, at the first unused location *)
Definition alloc (o : obj) : M loc :=
  fun w => (set_heap (heap w ++ [o]) w, Ret (length (heap w))).

(** [l[:]]: a new list object with the same items *)
Definition list_copy (l : loc) : M loc :=
  fun w =>
    match nth_error (heap w) l with
    | Some (OList items) => alloc (OList items) w
    | _ => (w, Raise (TypeError "object is not subscriptable"))
    end.

(** [l.append(x)]: the list object at [l] is changed in place *)
Definition list_append (l : loc) (x : loc) : M unit :=
  fun w =>
    match nth_error (heap w) l with
    | Some (OList items) =>
        (set_heap (list_update l (OList (items ++ [x])) (heap w)) w, Ret tt)
    | _ => (w, Raise (mk_exn "AttributeError" ["append"]))
    end.

(** ** 2-3. The stylesheet of the graph panel (lines 138-157) *)

Definition base_rules : list obj :=
  [ ORule "node"
      [ ("label", SStr "data(label)"); ("font-size", SStr "10px");
        ("text-valign", SStr "center"); ("text-halign", SStr "center");
        ("width", SStr "50px"); ("height", SStr "50px") ];
    ORule ".center" [("background-color", SStr "#8390FA")];
    ORule ".asset" [("background-color", SStr "#7FB069")];
    ORule ".liability" [("background-color", SStr "#F28D35")];
    ORule ".equity" [("background-color", SStr "#6A4C93")];
    ORule ".income" [("background-color", SStr "#4281A4")];
    ORule ".expense" [("background-color", SStr "#D64161")];
    ORule "edge" [("line-color", SStr "#999"); ("width", SNum (3 # 2))] ].

(** The state once the module is imported: the rule dicts, then the list
    that holds them. *)
Definition module_world : world :=
  mk_world LEAF_NODES TREE ROOTS computed_nodes
           (length base_rules)
           (base_rules ++ [OList (seq 0 (length base_rules))]).

(** ** 4. The callback (lines 181-213) *)

(** [30 + (v / max_val) * 70] *)
Definition node_size (ratio : Q) : Q := (30 + ratio * 70)%Q.

(** The rule of line 210 *)
Definition size_rule (nid : string) (size : Q) : obj :=
  ORule ("node[id = '" ++ nid ++ "']")
        [("width", SPx size); ("height", SPx size)].

(** The loop of lines 208-210 *)
Fixpoint resize_nodes (mv : Z) (stylesheet : loc) (items : dict Z) : M unit :=
  match items with
  | [] => mret tt
  | (nid, v) :: rest =>
      let! ratio := lift (truediv v mv) in
      let! rule := alloc (size_rule nid (node_size ratio)) in
      let! _ := list_append stylesheet rule in
      resize_nodes mv stylesheet rest
  end.

(** [[computed_vals[n] for n in computed_nodes]] *)
Fixpoint getitems (cv : dict Z) (keys : list string) : outcome (list Z) :=
  match keys with
  | [] => Ret []
  | n :: keys' =>
      let? v := dict_getitem n cv in
      let? vs := getitems cv keys' in
      Ret (v :: vs)
  end.

(** [dict(zip(LEAF_NODES, vals[-len(LEAF_NODES):]))] (line 184) *)
Definition leaf_vals_of (leaf_nodes : dict Z) (vals : list Z) : dict Z :=
  dict_of_pairs (combine (dict_keys leaf_nodes) (slice_last (length leaf_nodes) vals)).

Definition update_graph_and_totals (fuel : nat) (vals : list Z)
  : M (loc * list Z) :=
  fun w =>
    let leaf_vals := leaf_vals_of (g_LEAF_NODES w) vals in
    (let! cv := lift (computed_vals (g_LEAF_NODES w) (g_TREE w)
                                    (g_computed_nodes w) leaf_vals fuel) in
     let! mv := lift (max_val leaf_vals cv) in
     let! stylesheet := list_copy (g_stylesheet w) in
     let! _ := resize_nodes mv stylesheet (dict_merge leaf_vals cv) in
     let! outs := lift (getitems cv (g_computed_nodes w)) in
     mret (stylesheet, outs)) w.

(** ** The engine seen as a function of the snapshot

    The two maps the callback computes on its way: the derived values
    [computed_vals] and, for every account of [{**leaf_vals,
    **computed_vals}], the ratio [v / max_val] that line 209 scales into a
    node size. *)

Fixpoint visual_weights (mv : Z) (items : dict Z) : outcome (dict Q) :=
  match items with
  | [] => Ret []
  | (nid, v) :: rest =>
      let? ratio := truediv v mv in
      let? ws := visual_weights mv rest in
      Ret ((nid, ratio) :: ws)
  end.

Definition recompute_with (leaf_nodes : dict Z) (tree : dict (list string))
    (nodes : list string) (fuel : nat) (leaf_vals : dict Z)
  : outcome (dict Z * dict Q) :=
  let? cv := computed_vals leaf_nodes tree nodes leaf_vals fuel in
  let? mv := max_val leaf_vals cv in
  let? ws := visual_weights mv (dict_merge leaf_vals cv) in
  Ret (cv, ws).

Definition recompute : nat -> dict Z -> outcome (dict Z * dict Q) :=
  recompute_with LEAF_NODES TREE computed_nodes.

(** ** 2. The Cytoscape graph (lines 55-87) *)

(** [s.replace(old, new)] for one-character [old] and [new]: every
    occurrence is replaced. *)
Fixpoint replace (old new : ascii) (s : string) : string :=
  match s with
  | EmptyString => EmptyString
  | String c s' =>
      String (if Ascii.eqb c old then new else c) (replace old new s')
  end.

(** The dicts that [make_node] and [make_edge] return. *)
Inductive element : Type :=
| Node (id label classes : string)
| Edge (source target : string).

Definition make_node (_id _class : string) : element :=
  Node _id (replace "_" " " _id) _class.

Definition make_edge (src tgt : string) : element := Edge src tgt.

Definition CLASS_MAP : dict string :=
  [ ("Assets", "asset"); ("CurrentAssets", "asset");
    ("NonCurrentAssets", "asset");
    ("Cash", "asset"); ("AR", "asset"); ("Inventory", "asset");
    ("PPE", "asset"); ("Intangibles", "asset");
    ("Liabilities", "liability"); ("CurrentLiabilities", "liability");
    ("NonCurrentLiabilities", "liability");
    ("AP", "liability"); ("NotesPayable", "liability");
    ("LongTermDebt", "liability");
    ("Equity", "equity");
    ("Income", "income"); ("OperatingIncome", "income");
    ("NonOperatingIncome", "income");
    ("Expenses", "expense"); ("COGS", "expense"); ("SGA", "expense");
    ("Depreciation", "expense"); ("InterestExp", "expense");
    ("Equation", "center") ].

(** [d.get(k, default)] *)
Definition dict_get_default {V : Type} (k : string) (d : dict V) (default : V)
  : V :=
  match dict_get k d with Some v => v | None => default end.

(** The list [elements] after lines 61-87: a node per member of
    [all_nodes] (a set: the order of the nodes is the order of its
    iteration, which Python does not fix), an edge per child of [TREE],
    an edge from "Equation" to each of [ROOTS] and to "Equity". *)
Definition elements_of (leaf_nodes : dict Z) (tree : dict (list string))
    (roots : list string) (class_map : dict string) : list element :=
  (map (fun nid => make_node nid (dict_get_default nid class_map "asset"))
       (all_nodes_of leaf_nodes tree)
   ++ flat_map (fun pk => map (make_edge (fst pk)) (snd pk)) tree
   ++ map (make_edge "Equation") roots
   ++ [make_edge "Equation" "Equity"])%list.

Definition elements : list element :=
  elements_of LEAF_NODES TREE ROOTS CLASS_MAP.

(** ** 3. The layout (lines 95-117) and the dependencies of the callback
    (lines 177-179) *)

(** [dcc.Slider(...)] with the arguments [slider] gives it. *)
Record Slider : Type := mk_Slider {
  slider_id : string;
  slider_min : Z;
  slider_max : Z;
  slider_step : Z;
  slider_value : Z;
  slider_disabled : bool;
  slider_updatemode : string;
  slider_tooltip_placement : string;
  slider_marks : list (Z * string)
}.

(** The [html.Div] that [slider] returns: a label and a slider. *)
Record SliderDiv : Type := mk_SliderDiv {
  div_margin_bottom : string;
  label_text : string;
  label_htmlFor : string;
  div_slider : Slider
}.

Definition slider (nid : string) (value : Z) (disabled : bool) : SliderDiv :=
  mk_SliderDiv "18px" (replace "_" " " nid) ("slider-" ++ nid)
    (mk_Slider ("slider-" ++ nid) 0 200000 1000 value disabled "drag" "bottom"
       [(0, "0"); (50000, "50k"); (100000, "100k"); (150000, "150k");
        (200000, "200k")]).

Definition leaf_sliders_of (leaf_nodes : dict Z) : list SliderDiv :=
  map (fun nv => slider (fst nv) (snd nv) false) leaf_nodes.

Definition computed_sliders_of (nodes : list string) : list SliderDiv :=
  map (fun n => slider n 0 true) nodes.

Definition leaf_sliders : list SliderDiv := leaf_sliders_of LEAF_NODES.
Definition computed_sliders : list SliderDiv :=
  computed_sliders_of computed_nodes.

(** [Input(component_id, component_property)] and [Output(...)]. *)
Inductive dependency : Type :=
| Input (component_id component_property : string)
| Output (component_id component_property : string).

Definition dependency_id (d : dependency) : string :=
  match d with Input i _ => i | Output i _ => i end.

Definition leaf_inputs_of (leaf_nodes : dict Z) : list dependency :=
  map (fun nid => Input ("slider-" ++ nid) "value") (dict_keys leaf_nodes).

Definition computed_outputs_of (nodes : list string) : list dependency :=
  map (fun nid => Output ("slider-" ++ nid) "value") nodes.

Definition leaf_inputs : list dependency := leaf_inputs_of LEAF_NODES.
Definition computed_outputs : list dependency :=
  computed_outputs_of computed_nodes.
Definition mindmap_out : dependency := Output "mindmap" "stylesheet".

(** The ids of the components of [app.layout]: the sliders of the
    sidebar, then the graph. *)
Definition layout_ids_of (leaf_nodes : dict Z) (nodes : list string)
  : list string :=
  (map (fun d => slider_id (div_slider d)) (leaf_sliders_of leaf_nodes)
   ++ map (fun d => slider_id (div_slider d)) (computed_sliders_of nodes)
   ++ ["mindmap"])%list.

(** ** Vocabulary of the properties *)

(** The weights the loop of lines 208-209 computes when the divisor is
    not 0: the value of every account over the divisor. *)
Definition ratios (mv : Z) (items : dict Z) : dict Q :=
  map (fun kv => (fst kv, (inject_Z (snd kv) / inject_Z mv)%Q)) items.

(** The dict that line 184 builds from fourteen values. *)
Definition snapshot (c ar inv ppe intg ap np ltd oi noi cogs sga dep ie : Z)
  : dict Z :=
  [ ("Cash", c); ("AR", ar); ("Inventory", inv); ("PPE", ppe);
    ("Intangibles", intg);
    ("AP", ap); ("NotesPayable", np); ("LongTermDebt", ltd);
    ("OperatingIncome", oi); ("NonOperatingIncome", noi);
    ("COGS", cogs); ("SGA", sga); ("Depreciation", dep); ("InterestExp", ie) ].

(** The value of an account once the callback has merged both dicts
    (line 208). *)
Definition value_after (lv cv : dict Z) (account : string) : option Z :=
  dict_get account (dict_merge lv cv).

(** The roll-up of a complete snapshot in closed form. *)
Definition rolled_up (c ar inv ppe intg ap np ltd oi noi cogs sga dep ie : Z)
  : dict Z :=
  [ ("Assets", c + ar + inv + (ppe + intg));
    ("CurrentAssets", c + ar + inv);
    ("CurrentLiabilities", ap + np);
    ("Equity",
      c + ar + inv + (ppe + intg) + (oi + noi) - (cogs + sga + dep + ie)
      - (ap + np + ltd));
    ("Expenses", cogs + sga + dep + ie);
    ("Income", oi + noi);
    ("Liabilities", ap + np + ltd);
    ("NonCurrentAssets", ppe + intg);
    ("NonCurrentLiabilities", ltd) ].

(** The greatest of the values of a complete snapshot and its roll-up. *)
Definition greatest (lv cv : dict Z) : Z :=
  match all_values lv cv with
  | [] => 0
  | x :: rest => fold_left Z.max rest x
  end.

(** The call relation of the roll-up on the hierarchy. *)
Definition child_of (child parent : string) : Prop :=
  exists kids, dict_get parent TREE = Some kids /\ In child kids.

(** The height of an account in the call graph of [total]: the children
    of a [TREE] entry are below it, the four [ROOTS] are below Equity. *)
Fixpoint height (fuel : nat) (node : string) : nat :=
  match fuel with
  | O => O
  | S fuel' =>
      match dict_get node TREE with
      | Some kids => S (list_max (map (height fuel') kids))
      | None =>
          if String.eqb node "Equity"
          then S (list_max (map (height fuel') ROOTS))
          else O
      end
  end.

Definition rank (node : string) : nat := height 4 node.

(** The leaves an incomplete snapshot lacks, in the order of [LEAF_NODES]. *)
Definition missing_leaves (lv : dict Z) : list string :=
  filter (fun n => negb (dict_mem n lv)) (dict_keys LEAF_NODES).

(** The rules that lines 208-210 append: one per account. *)
Definition size_rules (mv : Z) (items : dict Z) : list obj :=
  map (fun kv =>
         size_rule (fst kv) (node_size (inject_Z (snd kv) / inject_Z mv)%Q))
      items.

(** A state in which the module globals hold their definitions. *)
Definition loaded (w : world) : Prop :=
  g_LEAF_NODES w = LEAF_NODES /\
  g_TREE w = TREE /\
  g_computed_nodes w = computed_nodes.

(** The reference values of [LEAF_NODES] without the last two. *)
Definition twelve_values : list Z :=
  [10000; 12000; 8000; 40000; 5000; 7000; 6000; 20000; 15000; 3000; 9000; 4000].

(** The rule dicts of the list at [l], read through the heap. *)
Definition read_list (h : list obj) (l : loc) : option (list (option obj)) :=
  match nth_error h l with
  | Some (OList items) => Some (map (nth_error h) items)
  | _ => None
  end.

(** What the caller of the callback gets to see of a call: the values of
    the computed sliders and the contents of the stylesheet. *)
Definition observe (r : world * outcome (loc * list Z))
  : outcome (option (list (option obj)) * list Z) :=
  match snd r with
  | Ret (s, outs) => Ret (read_list (heap (fst r)) s, outs)
  | Raise e => Raise e
  | Timeout => Timeout
  end.

(** The stylesheet attribute refers to a list whose items are objects of
    the heap. *)
Definition wf_world (w : world) : Prop :=
  exists base,
    nth_error (heap w) (g_stylesheet w) = Some (OList base) /\
    Forall (fun l => (l < length (heap w))%nat) base.

(** The state after a sequence of calls; a call is its fuel and its
    arguments. *)
Fixpoint run_calls (calls : list (nat * list Z)) (w : world) : world :=
  match calls with
  | [] => w
  | (fuel, vals) :: rest =>
      run_calls rest (fst (update_graph_and_totals fuel vals w))
  end.

(** Every leaf at 0 but the payables. *)
Definition payables_only : list Z :=
  [0; 0; 0; 0; 0; 1000; 0; 0; 0; 0; 0; 0; 0; 0].

(** The reference assignment is the default of the sliders. *)
Definition reference_values : list Z := dict_values LEAF_NODES.

(** The same with PPE raised from 40000 to 240000. *)
Definition raised_values : list Z :=
  [10000; 12000; 8000; 240000; 5000; 7000; 6000; 20000; 15000; 3000; 9000;
   4000; 2000; 1000].

(** The accounts whose value the raise of PPE does not change. *)
Definition unchanged_accounts : list string :=
  filter (fun n => negb (existsb (String.eqb n)
                           ["PPE"; "NonCurrentAssets"; "Assets"; "Equity"]))
         (dict_keys LEAF_NODES ++ computed_nodes).

(** The ids of the nodes of a list of elements, and its edges. *)
Definition node_ids (els : list element) : list string :=
  flat_map (fun e => match e with Node i _ _ => [i] | Edge _ _ => [] end) els.

Definition edges (els : list element) : list (string * string) :=
  flat_map (fun e => match e with Edge s t => [(s, t)] | Node _ _ _ => [] end)
           els.

(** The leaves below an account in the hierarchy, in the order [total]
    reaches them; a leaf is below itself. *)
Fixpoint leaves_of (leaf_nodes : dict Z) (tree : dict (list string))
    (fuel : nat) (node : string) : list string :=
  match fuel with
  | O => []
  | S fuel' =>
      if dict_mem node leaf_nodes then [node]
      else
        match dict_get node tree with
        | Some kids => flat_map (leaves_of leaf_nodes tree fuel') kids
        | None => []
        end
  end.

(** How much one unit more on a leaf adds to a computed account: the
    number of times the leaf is below it, and for "Equity" the sign the
    formula of lines 193-197 gives to the branch of the leaf. *)
Definition coefficient (leaf account : string) : Z :=
  let below n :=
    Z.of_nat (count_occ string_dec (leaves_of LEAF_NODES TREE 3 n) leaf) in
  if String.eqb account "Equity"
  then below "Assets" + below "Income" - below "Expenses" - below "Liabilities"
  else below account.

(** * Properties *)

Open Scope list_scope.

(** ** Facts about the Python primitives *)

Lemma or_1_nonzero (m : Z) : or_1 m <> 0.
Proof.
  unfold or_1. destruct (m =? 0) eqn:E.
  - discriminate.
  - now apply Z.eqb_neq.
Qed.

Lemma or_1_of_nonneg (m : Z) : 0 <= m -> or_1 m = Z.max 1 m.
Proof.
  intros Hm. unfold or_1. destruct (m =? 0) eqn:E.
  - apply Z.eqb_eq in E. subst m. reflexivity.
  - apply Z.eqb_neq in E. lia.
Qed.

Lemma or_1_of_negative (m : Z) : m < 0 -> or_1 m = m.
Proof.
  intros Hm. unfold or_1. destruct (m =? 0) eqn:E; [|reflexivity].
  apply Z.eqb_eq in E. lia.
Qed.

Lemma fold_max_lower (l : list Z) (x : Z) : x <= fold_left Z.max l x.
Proof.
  revert x. induction l as [|y l IH]; intros x; simpl.
  - lia.
  - specialize (IH (Z.max x y)). lia.
Qed.

(** [max] is an upper bound of its argument... *)
Lemma fold_max_upper (l : list Z) (x v : Z) :
  In v (x :: l) -> v <= fold_left Z.max l x.
Proof.
  revert x. induction l as [|y l IH]; intros x Hin; simpl.
  - destruct Hin as [E|[]]. lia.
  - destruct Hin as [E|[E|Hin]].
    + pose proof (fold_max_lower l (Z.max x y)). lia.
    + pose proof (fold_max_lower l (Z.max x y)). lia.
    + apply IH. now right.
Qed.

(** ... and one of its items. *)
Lemma fold_max_attained (l : list Z) (x : Z) : In (fold_left Z.max l x) (x :: l).
Proof.
  revert x. induction l as [|y l IH]; intros x; simpl.
  - now left.
  - destruct (IH (Z.max x y)) as [E|Hin].
    + rewrite <- E. destruct (Z.max_spec x y) as [[_ ->]|[_ ->]]; auto.
    + auto.
Qed.

Lemma truediv_ret (v mv : Z) :
  mv <> 0 -> truediv v mv = Ret (inject_Z v / inject_Z mv)%Q.
Proof.
  intros Hmv. unfold truediv. apply Z.eqb_neq in Hmv. now rewrite Hmv.
Qed.

Lemma visual_weights_ret (mv : Z) (items : dict Z) :
  mv <> 0 -> visual_weights mv items = Ret (ratios mv items).
Proof.
  intros Hmv. induction items as [|[nid v] rest IH]; simpl.
  - reflexivity.
  - rewrite (truediv_ret v mv Hmv). simpl. rewrite IH. reflexivity.
Qed.

Lemma dict_get_ratios (mv : Z) (items : dict Z) (k : string) :
  dict_get k (ratios mv items)
  = option_map (fun v => (inject_Z v / inject_Z mv)%Q) (dict_get k items).
Proof.
  induction items as [|[k' v] rest IH]; simpl.
  - reflexivity.
  - destruct (String.eqb k k'); [reflexivity|exact IH].
Qed.

Lemma dict_get_In {V : Type} (k : string) (d : dict V) (v : V) :
  dict_get k d = Some v -> In (k, v) d.
Proof.
  induction d as [|[k' v'] d IH]; simpl; [discriminate|].
  destruct (String.eqb k k') eqn:E.
  - intros [= ->]. apply String.eqb_eq in E. subst. now left.
  - intros H. right. now apply IH.
Qed.

Lemma dict_get_not_key {V : Type} (k : string) (d : dict V) :
  ~ In k (dict_keys d) -> dict_get k d = None.
Proof.
  induction d as [|[k' v'] d IH]; simpl; [reflexivity|].
  intros Hn. destruct (String.eqb k k') eqn:E.
  - apply String.eqb_eq in E. subst. tauto.
  - apply IH. tauto.
Qed.

(** Ratios, in exact arithmetic. *)
Lemma ratio_le_1 (v mv : Z) :
  0 < mv -> v <= mv -> (inject_Z v / inject_Z mv <= 1)%Q.
Proof.
  intros Hmv Hv. apply Qle_shift_div_r.
  - change 0%Q with (inject_Z 0). now rewrite <- Zlt_Qlt.
  - rewrite Qmult_1_l. now rewrite <- Zle_Qle.
Qed.

Lemma ratio_nonneg (v mv : Z) :
  0 < mv -> 0 <= v -> (0 <= inject_Z v / inject_Z mv)%Q.
Proof.
  intros Hmv Hv. apply Qle_shift_div_l.
  - change 0%Q with (inject_Z 0). now rewrite <- Zlt_Qlt.
  - rewrite Qmult_0_l. change 0%Q with (inject_Z 0). now rewrite <- Zle_Qle.
Qed.

Lemma ratio_negative (v mv : Z) :
  0 < mv -> v < 0 -> (inject_Z v / inject_Z mv < 0)%Q.
Proof.
  intros Hmv Hv. apply Qlt_shift_div_r.
  - change 0%Q with (inject_Z 0). now rewrite <- Zlt_Qlt.
  - rewrite Qmult_0_l. change 0%Q with (inject_Z 0). now rewrite <- Zlt_Qlt.
Qed.

Lemma ratio_self (mv : Z) : mv <> 0 -> (inject_Z mv / inject_Z mv == 1)%Q.
Proof.
  intros Hmv. apply Qmult_inv_r.
  intros E. apply Hmv. now apply (inject_Z_injective mv 0).
Qed.

Lemma ratio_zero (mv : Z) : (inject_Z 0 / inject_Z mv == 0)%Q.
Proof. unfold Qdiv. now rewrite Qmult_0_l. Qed.

(** ** Complete snapshots *)

Lemma computed_nodes_eq :
  computed_nodes =
  ["Assets"; "CurrentAssets"; "CurrentLiabilities"; "Equity"; "Expenses";
   "Income"; "Liabilities"; "NonCurrentAssets"; "NonCurrentLiabilities"].
Proof. reflexivity. Qed.

Lemma slice_last_length {A : Type} (n : nat) (l : list A) :
  (S n <= length l)%nat -> length (slice_last (S n) l) = S n.
Proof. intros H. unfold slice_last. rewrite length_skipn. lia. Qed.

Lemma leaf_vals_of_complete (vals : list Z) :
  (length LEAF_NODES <= length vals)%nat ->
  exists c ar inv ppe intg ap np ltd oi noi cogs sga dep ie,
    leaf_vals_of LEAF_NODES vals
    = snapshot c ar inv ppe intg ap np ltd oi noi cogs sga dep ie.
Proof.
  intros H. unfold leaf_vals_of.
  change (length LEAF_NODES) with 14%nat in *.
  apply slice_last_length in H.
  remember (slice_last 14 vals) as vs eqn:E. clear E.
  do 14 (destruct vs as [|? vs];
         [simpl in H; discriminate H|simpl in H; injection H as H]).
  destruct vs; [|simpl in H; discriminate H].
  repeat eexists.
Qed.

(** Replaces the snapshot of a complete [vals] by its fourteen values. *)
Ltac complete_snapshot H :=
  let c := fresh "c" in let ar := fresh "ar" in let inv := fresh "inv" in
  let ppe := fresh "ppe" in let intg := fresh "intg" in let ap := fresh "ap" in
  let np := fresh "np" in let ltd := fresh "ltd" in let oi := fresh "oi" in
  let noi := fresh "noi" in let cogs := fresh "cogs" in let sga := fresh "sga" in
  let dep := fresh "dep" in let ie := fresh "ie" in
  let E := fresh "E" in
  destruct (leaf_vals_of_complete _ H)
    as (c & ar & inv & ppe & intg & ap & np & ltd & oi & noi & cogs & sga
        & dep & ie & E);
  rewrite E in *; clear E.

Lemma computed_vals_snapshot (k : nat)
    (c ar inv ppe intg ap np ltd oi noi cogs sga dep ie : Z) :
  computed_vals LEAF_NODES TREE computed_nodes
    (snapshot c ar inv ppe intg ap np ltd oi noi cogs sga dep ie) (4 + k)
  = Ret (rolled_up c ar inv ppe intg ap np ltd oi noi cogs sga dep ie).
Proof. cbn. reflexivity. Qed.

Lemma recompute_with_ret (ln : dict Z) (tr : dict (list string))
    (nodes : list string) (fuel : nat) (lv cv : dict Z) (m : Z) :
  computed_vals ln tr nodes lv fuel = Ret cv ->
  py_max (all_values lv cv) = Ret m ->
  recompute_with ln tr nodes fuel lv
  = Ret (cv, ratios (or_1 m) (dict_merge lv cv)).
Proof.
  intros Hcv Hm. unfold recompute_with, max_val. rewrite Hcv. simpl.
  rewrite Hm. simpl.
  rewrite (visual_weights_ret _ _ (or_1_nonzero m)). reflexivity.
Qed.

Lemma merge_snapshot (c ar inv ppe intg ap np ltd oi noi cogs sga dep ie : Z) :
  dict_merge (snapshot c ar inv ppe intg ap np ltd oi noi cogs sga dep ie)
             (rolled_up c ar inv ppe intg ap np ltd oi noi cogs sga dep ie)
  = (snapshot c ar inv ppe intg ap np ltd oi noi cogs sga dep ie
     ++ rolled_up c ar inv ppe intg ap np ltd oi noi cogs sga dep ie)%list.
Proof. cbn. reflexivity. Qed.

Lemma py_max_snapshot (c ar inv ppe intg ap np ltd oi noi cogs sga dep ie : Z) :
  let lv := snapshot c ar inv ppe intg ap np ltd oi noi cogs sga dep ie in
  let cv := rolled_up c ar inv ppe intg ap np ltd oi noi cogs sga dep ie in
  py_max (all_values lv cv) = Ret (greatest lv cv).
Proof. intros lv cv. subst lv cv.
  unfold greatest, py_max, all_values, snapshot, rolled_up.
  cbn [dict_values map snd app]. reflexivity. Qed.

Lemma recompute_snapshot (k : nat)
    (c ar inv ppe intg ap np ltd oi noi cogs sga dep ie : Z) :
  let lv := snapshot c ar inv ppe intg ap np ltd oi noi cogs sga dep ie in
  let cv := rolled_up c ar inv ppe intg ap np ltd oi noi cogs sga dep ie in
  recompute (4 + k) lv
  = Ret (cv, ratios (or_1 (greatest lv cv)) (lv ++ cv)%list).
Proof.
  intros lv cv. unfold recompute.
  rewrite (recompute_with_ret _ _ _ _ lv cv (greatest lv cv)
             (computed_vals_snapshot k _ _ _ _ _ _ _ _ _ _ _ _ _ _)
             (py_max_snapshot _ _ _ _ _ _ _ _ _ _ _ _ _ _)).
  subst lv cv. rewrite merge_snapshot. reflexivity.
Qed.

(** ** The roll-up *)

(** C1. For every complete snapshot the callback computes a value for
    every Derived account (every key of [TREE]), and that value is the sum
    of the values its children have after the same recomputation; since
    this holds for every key of [TREE], it holds at every depth. *)
Theorem derived_value_is_sum_of_children :
  forall (k : nat) (vals : list Z),
    (length LEAF_NODES <= length vals)%nat ->
    let lv := leaf_vals_of LEAF_NODES vals in
    exists cv ws,
      recompute (4 + k) lv = Ret (cv, ws) /\
      forall account kids,
        dict_get account TREE = Some kids ->
        exists v vs,
          dict_get account cv = Some v /\
          Forall2 (fun child x => value_after lv cv child = Some x) kids vs /\
          v = fold_left Z.add vs 0.
Proof.
  intros k vals Hlen lv. subst lv. complete_snapshot Hlen.
  eexists. eexists. split; [apply recompute_snapshot|].
  intros account kids Hkids.
  apply dict_get_In in Hkids. simpl in Hkids.
  repeat (destruct Hkids as [Hkids|Hkids]; [injection Hkids as <- <-|]);
    try contradiction;
    (eexists; eexists; split; [reflexivity|]; split;
     [repeat (apply Forall2_cons; [reflexivity|]); apply Forall2_nil
     |reflexivity]).
Qed.

Lemma derived_value_is_sum_of_children_witness :
  (length LEAF_NODES <= length reference_values)%nat /\
  exists cv ws,
    recompute (4 + 0) (leaf_vals_of LEAF_NODES reference_values) = Ret (cv, ws) /\
    forall account kids,
      dict_get account TREE = Some kids ->
      exists v vs,
        dict_get account cv = Some v /\
        Forall2 (fun child x =>
                   value_after (leaf_vals_of LEAF_NODES reference_values) cv child
                   = Some x) kids vs /\
        v = fold_left Z.add vs 0.
Proof.
  split.
  - simpl. lia.
  - apply (derived_value_is_sum_of_children 0 reference_values). simpl. lia.
Defined.

(** C2. For every complete snapshot the value computed for [Equity] is
    Assets + Income - Expenses - Liabilities, on the totals the same call
    computes for the four branch roots. *)
Theorem equity_balances :
  forall (k : nat) (vals : list Z),
    (length LEAF_NODES <= length vals)%nat ->
    exists cv ws assets liabilities income expenses equity,
      recompute (4 + k) (leaf_vals_of LEAF_NODES vals) = Ret (cv, ws) /\
      dict_get "Assets" cv = Some assets /\
      dict_get "Liabilities" cv = Some liabilities /\
      dict_get "Income" cv = Some income /\
      dict_get "Expenses" cv = Some expenses /\
      dict_get "Equity" cv = Some equity /\
      equity = assets + income - expenses - liabilities.
Proof.
  intros k vals Hlen. complete_snapshot Hlen.
  do 7 eexists. split; [apply recompute_snapshot|].
  repeat (split; [reflexivity|]). reflexivity.
Qed.

Lemma equity_balances_witness :
  (length LEAF_NODES <= length reference_values)%nat /\
  exists cv ws assets liabilities income expenses equity,
    recompute (4 + 0) (leaf_vals_of LEAF_NODES reference_values) = Ret (cv, ws) /\
    dict_get "Assets" cv = Some assets /\
    dict_get "Liabilities" cv = Some liabilities /\
    dict_get "Income" cv = Some income /\
    dict_get "Expenses" cv = Some expenses /\
    dict_get "Equity" cv = Some equity /\
    equity = assets + income - expenses - liabilities.
Proof.
  split.
  - simpl. lia.
  - apply (equity_balances 0 reference_values). simpl. lia.
Defined.

(** ** Termination of [total] *)

Lemma dict_get_key {V : Type} (k : string) (d : dict V) (v : V) :
  dict_get k d = Some v -> In k (dict_keys d).
Proof.
  intros H. apply dict_get_In in H.
  unfold dict_keys. change k with (fst (k, v)). now apply in_map.
Qed.

Lemma rank_child (child parent : string) :
  child_of child parent -> (rank child < rank parent)%nat.
Proof.
  intros (kids & Hp & Hc). apply dict_get_In in Hp. simpl in Hp.
  repeat (destruct Hp as [Hp|Hp]; [injection Hp as <- <-|]);
    try contradiction;
    simpl in Hc;
    repeat (destruct Hc as [<-|Hc]; [vm_compute; lia|]);
    contradiction.
Qed.

Lemma rank_bound (node : string) : (rank node <= 3)%nat.
Proof.
  unfold rank.
  destruct (in_dec string_dec node ("Equity" :: dict_keys TREE)) as [Hin|Hout].
  - simpl in Hin.
    repeat (destruct Hin as [<-|Hin]; [vm_compute; lia|]). contradiction.
  - assert (Hn : dict_get node TREE = None).
    { apply dict_get_not_key. intros Hk. apply Hout. now right. }
    assert (He : String.eqb node "Equity" = false).
    { apply String.eqb_neq. intros ->. apply Hout. now left. }
    cbn [height]. rewrite Hn, He. lia.
Qed.

Lemma rank_roots :
  Forall (fun root => (rank root < rank "Equity")%nat) ROOTS.
Proof. repeat constructor; vm_compute; lia. Qed.

Theorem child_of_well_founded : well_founded child_of.
Proof.
  apply (well_founded_lt_compat _ rank). exact rank_child.
Qed.

Section Total.
Variable lv : dict Z.

Lemma py_sum_fuel (g g' : string -> outcome Z) (kids : list string) (acc : Z) :
  (forall kid, In kid kids -> g kid <> Timeout -> g' kid = g kid) ->
  py_sum acc (map g kids) <> Timeout ->
  py_sum acc (map g' kids) = py_sum acc (map g kids).
Proof.
  revert acc. induction kids as [|kid kids IH]; intros acc Hg Hnt.
  - reflexivity.
  - simpl in *.
    destruct (g kid) as [v|e|] eqn:Ek.
    + rewrite (Hg kid); [|now left|rewrite Ek; discriminate].
      rewrite Ek. simpl in *. apply IH; [|exact Hnt].
      intros kid' Hin. apply Hg. now right.
    + rewrite (Hg kid); [|now left|rewrite Ek; discriminate].
      rewrite Ek. reflexivity.
    + simpl in Hnt. contradiction.
Qed.

Lemma total_S (ln : dict Z) (tr : dict (list string)) (fuel : nat)
    (node : string) :
  total ln tr lv (S fuel) node
  = if dict_mem node ln then dict_getitem node lv
    else
      match dict_get node tr with
      | Some kids => py_sum 0 (map (total ln tr lv fuel) kids)
      | None =>
          if String.eqb node "Equity" then
            let? assets := total ln tr lv fuel "Assets" in
            let? liabilities := total ln tr lv fuel "Liabilities" in
            let? income := total ln tr lv fuel "Income" in
            let? expenses := total ln tr lv fuel "Expenses" in
            Ret (assets + income - expenses - liabilities)
          else Ret 0
      end.
Proof. reflexivity. Qed.

(** More fuel does not change a result. *)
Lemma total_fuel_S (ln : dict Z) (tr : dict (list string)) (fuel : nat)
    (node : string) :
  total ln tr lv fuel node <> Timeout ->
  total ln tr lv (S fuel) node = total ln tr lv fuel node.
Proof.
  revert node. induction fuel as [|fuel IH]; intros node Hnt.
  - simpl in Hnt. contradiction.
  - rewrite (total_S ln tr (S fuel) node).
    rewrite (total_S ln tr fuel node) in Hnt |- *.
    destruct (dict_mem node ln); [reflexivity|].
    destruct (dict_get node tr) as [kids|].
    + apply py_sum_fuel; [|exact Hnt]. intros kid _. apply IH.
    + destruct (String.eqb node "Equity"); [|reflexivity].
      destruct (total ln tr lv fuel "Assets") as [a|e|] eqn:Ea.
      2: { rewrite IH, Ea by (rewrite Ea; discriminate). reflexivity. }
      2: { simpl in Hnt. contradiction. }
      rewrite IH, Ea by (rewrite Ea; discriminate). simpl in *.
      destruct (total ln tr lv fuel "Liabilities") as [l|e|] eqn:El.
      2: { rewrite IH, El by (rewrite El; discriminate). reflexivity. }
      2: { simpl in Hnt. contradiction. }
      rewrite IH, El by (rewrite El; discriminate). simpl in *.
      destruct (total ln tr lv fuel "Income") as [i|e|] eqn:Ei.
      2: { rewrite IH, Ei by (rewrite Ei; discriminate). reflexivity. }
      2: { simpl in Hnt. contradiction. }
      rewrite IH, Ei by (rewrite Ei; discriminate). simpl in *.
      destruct (total ln tr lv fuel "Expenses") as [x|e|] eqn:Ex.
      2: { rewrite IH, Ex by (rewrite Ex; discriminate). reflexivity. }
      2: { simpl in Hnt. contradiction. }
      rewrite IH, Ex by (rewrite Ex; discriminate). reflexivity.
Qed.

Lemma total_fuel_add (ln : dict Z) (tr : dict (list string)) (fuel k : nat)
    (node : string) :
  total ln tr lv fuel node <> Timeout ->
  total ln tr lv (k + fuel) node = total ln tr lv fuel node.
Proof.
  intros Hnt. induction k as [|k IH]; [reflexivity|].
  change (S k + fuel)%nat with (S (k + fuel)).
  rewrite total_fuel_S; rewrite IH; auto.
Qed.

Lemma py_sum_no_timeout (items : list (outcome Z)) (acc : Z) :
  Forall (fun x => x <> Timeout) items -> py_sum acc items <> Timeout.
Proof.
  intros H. revert acc. induction H as [|x items Hx _ IH]; intros acc; simpl.
  - discriminate.
  - destruct x; simpl; [apply IH|discriminate|contradiction].
Qed.

Lemma dict_getitem_no_timeout (k : string) : dict_getitem k lv <> Timeout.
Proof. unfold dict_getitem. destruct (dict_get k lv); discriminate. Qed.

(** Fuel above the height of an account is enough. *)
Lemma total_no_timeout (fuel : nat) (node : string) :
  (rank node < fuel)%nat -> total LEAF_NODES TREE lv fuel node <> Timeout.
Proof.
  revert node. induction fuel as [|fuel IH]; intros node Hr; [lia|].
  rewrite total_S.
  destruct (dict_mem node LEAF_NODES); [apply dict_getitem_no_timeout|].
  destruct (dict_get node TREE) as [kids|] eqn:Et.
  - apply py_sum_no_timeout. apply Forall_map, Forall_forall.
    intros kid Hin. apply IH.
    assert (rank kid < rank node)%nat by (apply rank_child; now exists kids).
    lia.
  - destruct (String.eqb node "Equity") eqn:Ee; [|discriminate].
    apply String.eqb_eq in Ee. subst node.
    pose proof rank_roots as Hroots. unfold ROOTS in Hroots.
    inversion_clear Hroots as [|? ? Ha Hroots1].
    inversion_clear Hroots1 as [|? ? Hl Hroots2].
    inversion_clear Hroots2 as [|? ? Hi Hroots3].
    inversion_clear Hroots3 as [|? ? Hx _].
    destruct (total LEAF_NODES TREE lv fuel "Assets") eqn:E1;
      [|discriminate|exfalso; apply (IH "Assets"); [lia|exact E1]].
    destruct (total LEAF_NODES TREE lv fuel "Liabilities") eqn:E2;
      [|discriminate|exfalso; apply (IH "Liabilities"); [lia|exact E2]].
    destruct (total LEAF_NODES TREE lv fuel "Income") eqn:E3;
      [|discriminate|exfalso; apply (IH "Income"); [lia|exact E3]].
    destruct (total LEAF_NODES TREE lv fuel "Expenses") eqn:E4;
      [|discriminate|exfalso; apply (IH "Expenses"); [lia|exact E4]].
    discriminate.
Qed.

Lemma py_sum_no_raise (items : list (outcome Z)) (acc : Z) :
  Forall (fun x => forall e, x <> Raise e) items ->
  forall e, py_sum acc items <> Raise e.
Proof.
  intros H. revert acc. induction H as [|x items Hx _ IH]; intros acc e; simpl.
  - discriminate.
  - destruct x as [v|e'|]; simpl; [apply IH| |discriminate].
    exfalso. now apply (Hx e').
Qed.

Lemma missing_leaves_nil (name : string) :
  missing_leaves lv = [] ->
  dict_mem name LEAF_NODES = true ->
  exists v, dict_get name lv = Some v.
Proof.
  intros Hm Hl.
  assert (Hin : In name (dict_keys LEAF_NODES)).
  { unfold dict_mem in Hl.
    destruct (dict_get name LEAF_NODES) eqn:E; [|discriminate].
    eapply dict_get_key, E. }
  destruct (dict_get name lv) as [v|] eqn:E; [now exists v|].
  assert (Hf : In name (missing_leaves lv)).
  { apply filter_In. split; [exact Hin|]. unfold dict_mem. now rewrite E. }
  rewrite Hm in Hf. contradiction.
Qed.

(** On a complete snapshot no call of [total] raises. *)
Lemma total_no_raise (fuel : nat) (node : string) (e : exn) :
  missing_leaves lv = [] -> total LEAF_NODES TREE lv fuel node <> Raise e.
Proof.
  intros Hc. revert node e.
  induction fuel as [|fuel IH]; intros node e; [discriminate|].
  rewrite total_S.
  destruct (dict_mem node LEAF_NODES) eqn:El.
  - destruct (missing_leaves_nil node Hc El) as [v Hv].
    unfold dict_getitem. rewrite Hv. discriminate.
  - destruct (dict_get node TREE) as [kids|].
    + apply py_sum_no_raise. apply Forall_map, Forall_forall.
      intros kid _ e'. apply IH.
    + destruct (String.eqb node "Equity"); [|discriminate].
      destruct (total LEAF_NODES TREE lv fuel "Assets") eqn:E1;
        [|exfalso; exact (IH _ _ E1)|discriminate].
      destruct (total LEAF_NODES TREE lv fuel "Liabilities") eqn:E2;
        [|exfalso; exact (IH _ _ E2)|discriminate].
      destruct (total LEAF_NODES TREE lv fuel "Income") eqn:E3;
        [|exfalso; exact (IH _ _ E3)|discriminate].
      destruct (total LEAF_NODES TREE lv fuel "Expenses") eqn:E4;
        [|exfalso; exact (IH _ _ E4)|discriminate].
      discriminate.
Qed.
End Total.

(** C10. The child relation of [TREE] is well-founded, and [total]
    returns on every name and every snapshot: with 4 units of fuel or more
    it gives one and the same result, which is never the exhaustion of the
    fuel; on a complete snapshot that result is a value. *)
Theorem total_terminates :
  well_founded child_of /\
  forall (lv : dict Z) (name : string),
    exists r,
      r <> Timeout /\
      (forall k, total LEAF_NODES TREE lv (k + 4) name = r) /\
      (missing_leaves lv = [] -> exists v, r = Ret v).
Proof.
  split; [exact child_of_well_founded|].
  intros lv name.
  assert (Hnt : total LEAF_NODES TREE lv 4 name <> Timeout).
  { apply total_no_timeout. pose proof (rank_bound name). lia. }
  exists (total LEAF_NODES TREE lv 4 name). split; [exact Hnt|]. split.
  - intros k. now apply total_fuel_add.
  - intros Hc. destruct (total LEAF_NODES TREE lv 4 name) as [v|e|] eqn:E.
    + now exists v.
    + exfalso. exact (total_no_raise lv 4 name e Hc E).
    + contradiction.
Qed.

(** ** The callback and the heap *)

Lemma set_heap_set_heap (h h' : list obj) (w : world) :
  set_heap h (set_heap h' w) = set_heap h w.
Proof. reflexivity. Qed.

Lemma set_heap_same (w : world) : set_heap (heap w) w = w.
Proof. now destruct w. Qed.

Lemma list_update_middle {A : Type} (pre post : list A) (x y : A) :
  list_update (length pre) y (pre ++ x :: post) = pre ++ y :: post.
Proof. induction pre as [|a pre IH]; simpl; [reflexivity|now rewrite IH]. Qed.

Lemma nth_error_middle {A : Type} (pre post : list A) (x : A) :
  nth_error (pre ++ x :: post) (length pre) = Some x.
Proof. induction pre as [|a pre IH]; simpl; [reflexivity|exact IH]. Qed.

(** The loop allocates the rules after the objects there are and appends
    their locations to the list at [length h0]; it changes nothing else. *)
Lemma resize_nodes_spec (mv : Z) (items : dict Z) :
  mv <> 0 ->
  forall (w : world) (h0 : list obj) (its : list loc) (rules : list obj),
    heap w = (h0 ++ OList its :: rules) ->
    resize_nodes mv (length h0) items w
    = (set_heap
         (h0 ++ OList (its ++ seq (S (length h0 + length rules)) (length items))
             :: (rules ++ size_rules mv items)) w,
       Ret tt).
Proof.
  intros Hmv. induction items as [|[nid v] rest IH]; intros w h0 its rules Hh.
  - simpl. rewrite !app_nil_r, <- Hh, set_heap_same. reflexivity.
  - cbn [resize_nodes]. unfold mbind at 1, lift.
    rewrite (truediv_ret v mv Hmv).
    unfold mbind at 1, alloc.
    unfold mbind at 1, list_append.
    cbn [heap set_heap].
    rewrite Hh.
    replace ((h0 ++ OList its :: rules) ++
             [size_rule nid (node_size (inject_Z v / inject_Z mv))])
      with (h0 ++ OList its
               :: (rules ++ [size_rule nid (node_size (inject_Z v / inject_Z mv))]))
      by (now rewrite <- app_assoc).
    rewrite nth_error_middle, list_update_middle.
    rewrite set_heap_set_heap.
    erewrite IH; [|cbn [heap set_heap]; reflexivity].
    rewrite set_heap_set_heap.
    f_equal. f_equal. f_equal. f_equal.
    + f_equal. rewrite <- app_assoc. f_equal.
      rewrite !length_app. cbn [length seq app].
      f_equal; [lia|f_equal; lia].
    + rewrite <- app_assoc. reflexivity.
Qed.

(** The callback, stage by stage: the roll-up and the maximum are
    computed before the heap is touched; then the stylesheet is copied, a
    rule is appended for every account, and the computed values are
    collected. *)
Lemma update_eq (fuel : nat) (vals : list Z) (w : world) :
  let lv := leaf_vals_of (g_LEAF_NODES w) vals in
  update_graph_and_totals fuel vals w
  = match computed_vals (g_LEAF_NODES w) (g_TREE w) (g_computed_nodes w)
                        lv fuel with
    | Ret cv =>
        match py_max (all_values lv cv) with
        | Ret m =>
            match nth_error (heap w) (g_stylesheet w) with
            | Some (OList base) =>
                (set_heap
                   (heap w
                    ++ OList (base ++ seq (S (length (heap w)))
                                          (length (dict_merge lv cv)))
                    :: size_rules (or_1 m) (dict_merge lv cv)) w,
                 let? outs := getitems cv (g_computed_nodes w) in
                 Ret (length (heap w), outs))
            | _ => (w, Raise (TypeError "object is not subscriptable"))
            end
        | Raise e => (w, Raise e)
        | Timeout => (w, Timeout)
        end
    | Raise e => (w, Raise e)
    | Timeout => (w, Timeout)
    end.
Proof.
  intros lv. unfold update_graph_and_totals. fold lv.
  unfold mbind at 1, lift.
  destruct (computed_vals _ _ _ lv fuel) as [cv|e|]; try reflexivity.
  unfold mbind at 1, max_val.
  destruct (py_max (all_values lv cv)) as [m|e|]; try reflexivity.
  cbn [obind].
  unfold mbind at 1, list_copy.
  destruct (nth_error (heap w) (g_stylesheet w)) as [[sel st|base]|];
    try reflexivity.
  unfold alloc. unfold mbind at 1.
  erewrite (resize_nodes_spec (or_1 m) _ (or_1_nonzero m));
    [|cbn [heap set_heap]; reflexivity].
  unfold mbind, mret, lift. rewrite set_heap_set_heap.
  cbn [length app]. rewrite Nat.add_0_r.
  destruct (getitems cv (g_computed_nodes w)); reflexivity.
Qed.

(** The callback fails without touching the heap when the roll-up fails. *)
Lemma update_computed_raise (fuel : nat) (vals : list Z) (w : world) (e : exn) :
  computed_vals (g_LEAF_NODES w) (g_TREE w) (g_computed_nodes w)
                (leaf_vals_of (g_LEAF_NODES w) vals) fuel = Raise e ->
  update_graph_and_totals fuel vals w = (w, Raise e).
Proof. intros H. rewrite update_eq. cbv zeta. now rewrite H. Qed.

(** Every call extends the heap and leaves the rest of the state as it
    is; a call that returns has put its stylesheet first in the extension. *)
Lemma update_frame (fuel : nat) (vals : list Z) (w : world) :
  exists (ext : list obj) (r : outcome (loc * list Z)),
    update_graph_and_totals fuel vals w = (set_heap (heap w ++ ext) w, r) /\
    forall s outs,
      r = Ret (s, outs) ->
      s = length (heap w) /\
      exists base items rules,
        nth_error (heap w) (g_stylesheet w) = Some (OList base) /\
        ext = OList items :: rules.
Proof.
  rewrite update_eq. cbv zeta.
  assert (Hsame : forall r : outcome (loc * list Z),
             (w, r) = (set_heap (heap w ++ []) w, r))
    by (intros r; now rewrite app_nil_r, set_heap_same).
  destruct (computed_vals _ _ _ _ fuel) as [cv|e|];
    [|exists [], (Raise e); split; [apply Hsame|discriminate]
     |exists [], Timeout; split; [apply Hsame|discriminate]].
  destruct (py_max _) as [m|e|];
    [|exists [], (Raise e); split; [apply Hsame|discriminate]
     |exists [], Timeout; split; [apply Hsame|discriminate]].
  destruct (nth_error (heap w) (g_stylesheet w)) as [[sel st|base]|] eqn:Hb;
    [eexists [], _; split; [apply Hsame|discriminate]
    |
    |eexists [], _; split; [apply Hsame|discriminate]].
  eexists. eexists. split; [reflexivity|].
  intros s outs Hs.
  destruct (getitems cv (g_computed_nodes w)) as [outs'| |];
    [|discriminate|discriminate].
  injection Hs as <- _. split; [reflexivity|]. now eauto.
Qed.

(** ** Incomplete snapshots *)

Lemma filter_head_find {A : Type} (f : A -> bool) (l : list A) (x : A)
    (r : list A) :
  filter f l = x :: r -> find f l = Some x.
Proof.
  induction l as [|y l IH]; simpl; [discriminate|].
  destruct (f y); [now intros [= -> _]|exact IH].
Qed.

Ltac leaf_present_or_raise lv name :=
  destruct (dict_get name lv); [|intros [= <-]; reflexivity].

(** The roll-up stops at the first leaf of [LEAF_NODES] that the snapshot
    lacks. *)
Lemma computed_vals_first_missing (k : nat) (lv : dict Z) (name : string) :
  find (fun n => negb (dict_mem n lv)) (dict_keys LEAF_NODES) = Some name ->
  computed_vals LEAF_NODES TREE computed_nodes lv (4 + k)
  = Raise (KeyError name).
Proof.
  cbn. unfold dict_getitem, dict_mem.
  leaf_present_or_raise lv "Cash".
  leaf_present_or_raise lv "AR".
  leaf_present_or_raise lv "Inventory".
  leaf_present_or_raise lv "PPE".
  leaf_present_or_raise lv "Intangibles".
  leaf_present_or_raise lv "AP".
  leaf_present_or_raise lv "NotesPayable".
  leaf_present_or_raise lv "LongTermDebt".
  leaf_present_or_raise lv "OperatingIncome".
  leaf_present_or_raise lv "NonOperatingIncome".
  leaf_present_or_raise lv "COGS".
  leaf_present_or_raise lv "SGA".
  leaf_present_or_raise lv "Depreciation".
  leaf_present_or_raise lv "InterestExp".
  discriminate.
Qed.

(** C3, as the code has it. A snapshot that lacks a leaf makes the
    recomputation fail with [KeyError], whose argument is the first
    missing leaf in the order of [LEAF_NODES] and no other name; no map is
    produced, and the callback on such a snapshot raises the same error
    and leaves the state as it was. *)
Theorem missing_leaf_raises_KeyError :
  forall (k : nat) (lv : dict Z),
    missing_leaves lv <> [] ->
    exists name rest,
      missing_leaves lv = name :: rest /\
      recompute (4 + k) lv = Raise (KeyError name) /\
      forall vals w,
        loaded w ->
        leaf_vals_of LEAF_NODES vals = lv ->
        update_graph_and_totals (4 + k) vals w = (w, Raise (KeyError name)).
Proof.
  intros k lv Hm.
  destruct (missing_leaves lv) as [|name rest] eqn:E; [contradiction|].
  exists name, rest. split; [reflexivity|].
  apply filter_head_find in E.
  pose proof (computed_vals_first_missing k lv name E) as Hcv.
  split.
  - unfold recompute, recompute_with. now rewrite Hcv.
  - intros vals w (Hl & Ht & Hn) Hlv.
    apply update_computed_raise. rewrite Hl, Ht, Hn, Hlv. exact Hcv.
Qed.

Lemma missing_leaf_raises_KeyError_witness :
  missing_leaves (leaf_vals_of LEAF_NODES twelve_values) <> [] /\
  exists name rest,
    missing_leaves (leaf_vals_of LEAF_NODES twelve_values) = name :: rest /\
    recompute (4 + 0) (leaf_vals_of LEAF_NODES twelve_values)
    = Raise (KeyError name) /\
    forall vals w,
      loaded w ->
      leaf_vals_of LEAF_NODES vals = leaf_vals_of LEAF_NODES twelve_values ->
      update_graph_and_totals (4 + 0) vals w = (w, Raise (KeyError name)).
Proof.
  split.
  - vm_compute. discriminate.
  - apply (missing_leaf_raises_KeyError 0 (leaf_vals_of LEAF_NODES twelve_values)).
    vm_compute. discriminate.
Defined.

(** C3, as stated, fails: with two leaves missing the error is a
    [KeyError] that names one of them; it is not a
    [MissingLeafValueError] that lists the missing names. *)
Lemma missing_leaf_error_names_one_leaf :
  missing_leaves (leaf_vals_of LEAF_NODES twelve_values)
  = ["Depreciation"; "InterestExp"] /\
  recompute 4 (leaf_vals_of LEAF_NODES twelve_values)
  = Raise (KeyError "Depreciation") /\
  recompute 4 (leaf_vals_of LEAF_NODES twelve_values)
  <> Raise (mk_exn "MissingLeafValueError"
                   (missing_leaves (leaf_vals_of LEAF_NODES twelve_values))).
Proof.
  split; [reflexivity|]. split; [reflexivity|].
  vm_compute. discriminate.
Qed.

(** ** Frame and determinism *)

(** C9. A call changes none of the module globals [LEAF_NODES], [TREE],
    [ROOTS], [computed_nodes], nor the stylesheet attribute, nor any object
    that was in the heap before it (the base stylesheet and its rule dicts
    among them); the stylesheet it returns is a list object allocated by
    the call. *)
Theorem update_has_no_side_effect :
  forall (fuel : nat) (vals : list Z) (w : world),
    let w' := fst (update_graph_and_totals fuel vals w) in
    g_LEAF_NODES w' = g_LEAF_NODES w /\
    g_TREE w' = g_TREE w /\
    g_ROOTS w' = g_ROOTS w /\
    g_computed_nodes w' = g_computed_nodes w /\
    g_stylesheet w' = g_stylesheet w /\
    (forall l, (l < length (heap w))%nat ->
               nth_error (heap w') l = nth_error (heap w) l) /\
    (forall s outs,
        snd (update_graph_and_totals fuel vals w) = Ret (s, outs) ->
        (length (heap w) <= s)%nat /\
        s <> g_stylesheet w /\
        exists items, nth_error (heap w') s = Some (OList items)).
Proof.
  intros fuel vals w w'. subst w'.
  destruct (update_frame fuel vals w) as (ext & r & E & Hr).
  rewrite E. cbn [fst snd set_heap g_LEAF_NODES g_TREE g_ROOTS
                  g_computed_nodes g_stylesheet heap].
  repeat (split; [reflexivity|]). split.
  - intros l Hl. now apply nth_error_app1.
  - intros s outs Hs.
    destruct (Hr s outs Hs) as (-> & base & items & rules & Hb & ->).
    split; [lia|]. split.
    + intros Heq. rewrite <- Heq in Hb.
      assert (nth_error (heap w) (length (heap w)) = None)
        by (apply nth_error_None; lia).
      congruence.
    + exists items. apply nth_error_middle.
Qed.

Lemma run_calls_frame (calls : list (nat * list Z)) (w : world) :
  exists ext, run_calls calls w = set_heap (heap w ++ ext) w.
Proof.
  revert w. induction calls as [|[fuel vals] rest IH]; intros w.
  - exists []. now rewrite app_nil_r, set_heap_same.
  - cbn [run_calls].
    destruct (update_frame fuel vals w) as (ext & r & E & _).
    rewrite E. cbn [fst].
    destruct (IH (set_heap (heap w ++ ext) w)) as (ext' & E').
    exists (ext ++ ext'). rewrite E'. cbn [heap set_heap].
    now rewrite app_assoc.
Qed.

Lemma read_appended (pre rules : list obj) :
  map (nth_error (pre ++ rules)) (seq (length pre) (length rules))
  = map Some rules.
Proof.
  revert pre. induction rules as [|rule rules IH]; intros pre.
  - reflexivity.
  - cbn [length seq map]. rewrite nth_error_middle. f_equal.
    specialize (IH (pre ++ [rule])).
    rewrite <- app_assoc, length_app, Nat.add_comm in IH. exact IH.
Qed.

(** Reading a stylesheet that a call has built: the rule dicts of the
    base stylesheet, then the rules of the call. *)
Lemma read_new_stylesheet (h0 ext rules : list obj) (base : list loc) :
  Forall (fun l => (l < length h0)%nat) base ->
  read_list
    ((h0 ++ ext)
     ++ OList (base ++ seq (S (length (h0 ++ ext))) (length rules)) :: rules)
    (length (h0 ++ ext))
  = Some (map (nth_error h0) base ++ map Some rules).
Proof.
  intros Hb. unfold read_list. rewrite nth_error_middle.
  rewrite map_app. f_equal. f_equal.
  - apply map_ext_in. intros l Hl.
    rewrite Forall_forall in Hb. specialize (Hb l Hl).
    rewrite <- app_assoc. now apply nth_error_app1.
  - set (x := OList _).
    replace ((h0 ++ ext) ++ x :: rules) with (((h0 ++ ext) ++ [x]) ++ rules)
      by (now rewrite <- app_assoc).
    replace (S (length (h0 ++ ext))) with (length ((h0 ++ ext) ++ [x]))
      by (rewrite length_app; simpl; lia).
    apply read_appended.
Qed.

(** What a call shows does not depend on the objects earlier calls have
    added to the heap. *)
Lemma observe_update_extend (fuel : nat) (vals : list Z) (w : world)
    (ext : list obj) :
  wf_world w ->
  observe (update_graph_and_totals fuel vals (set_heap (heap w ++ ext) w))
  = observe (update_graph_and_totals fuel vals w).
Proof.
  intros (base & Hbase & Hlocs).
  rewrite !update_eq. cbv zeta.
  cbn [set_heap g_LEAF_NODES g_TREE g_computed_nodes g_stylesheet heap].
  destruct (computed_vals _ _ _ _ fuel) as [cv|e|]; try reflexivity.
  destruct (py_max _) as [m|e|]; try reflexivity.
  rewrite Hbase.
  rewrite (nth_error_app1 (heap w) ext)
    by (apply nth_error_Some; rewrite Hbase; discriminate).
  rewrite Hbase.
  unfold observe. cbn [fst snd set_heap heap].
  destruct (getitems cv (g_computed_nodes w)) as [outs|e|]; try reflexivity.
  cbn [obind]. f_equal. f_equal.
  pose proof (read_new_stylesheet (heap w) ext
                (size_rules (or_1 m)
                   (dict_merge (leaf_vals_of (g_LEAF_NODES w) vals) cv))
                base Hlocs) as H1.
  pose proof (read_new_stylesheet (heap w) []
                (size_rules (or_1 m)
                   (dict_merge (leaf_vals_of (g_LEAF_NODES w) vals) cv))
                base Hlocs) as H2.
  rewrite app_nil_r in H2.
  unfold size_rules in *. rewrite length_map in *.
  now rewrite H1, H2.
Qed.

(** C6. The callback is deterministic and keeps no state from one call
    to the next: in a well-formed state, whatever calls were made before,
    a call with the same arguments shows the same thing, the same values
    for the computed sliders and the same stylesheet, rule for rule, or
    it fails with the same exception. *)
Theorem update_is_deterministic :
  forall (w : world) (calls : list (nat * list Z)) (fuel : nat)
         (vals : list Z),
    wf_world w ->
    observe (update_graph_and_totals fuel vals (run_calls calls w))
    = observe (update_graph_and_totals fuel vals w).
Proof.
  intros w calls fuel vals Hwf.
  destruct (run_calls_frame calls w) as (ext & ->).
  now apply observe_update_extend.
Qed.

Lemma update_is_deterministic_witness :
  wf_world module_world /\
  observe (update_graph_and_totals 4 (dict_values LEAF_NODES)
             (run_calls [(4%nat, twelve_values); (4%nat, dict_values LEAF_NODES)]
                        module_world))
  = observe (update_graph_and_totals 4 (dict_values LEAF_NODES) module_world).
Proof.
  assert (Hwf : wf_world module_world).
  { exists (seq 0 (length base_rules)). split; [reflexivity|].
    apply Forall_forall. intros l Hl. apply in_seq in Hl.
    cbn in *. lia. }
  split; [exact Hwf|].
  apply (update_is_deterministic module_world); exact Hwf.
Defined.

(** ** The normalisation *)

Lemma dict_keys_ratios (mv : Z) (items : dict Z) :
  dict_keys (ratios mv items) = dict_keys items.
Proof.
  unfold dict_keys, ratios. rewrite map_map. reflexivity.
Qed.

Lemma dict_get_value {V : Type} (k : string) (d : dict V) (v : V) :
  dict_get k d = Some v -> In v (dict_values d).
Proof.
  intros H. apply dict_get_In in H.
  unfold dict_values. change v with (snd (k, v)). now apply in_map.
Qed.

Lemma all_values_snapshot (c ar inv ppe intg ap np ltd oi noi cogs sga dep ie : Z) :
  let lv := snapshot c ar inv ppe intg ap np ltd oi noi cogs sga dep ie in
  let cv := rolled_up c ar inv ppe intg ap np ltd oi noi cogs sga dep ie in
  all_values lv cv = dict_values (lv ++ cv).
Proof.
  intros lv cv. unfold all_values, dict_values. now rewrite map_app.
Qed.

Lemma greatest_upper (c ar inv ppe intg ap np ltd oi noi cogs sga dep ie : Z) :
  let lv := snapshot c ar inv ppe intg ap np ltd oi noi cogs sga dep ie in
  let cv := rolled_up c ar inv ppe intg ap np ltd oi noi cogs sga dep ie in
  forall v, In v (all_values lv cv) -> v <= greatest lv cv.
Proof.
  intros lv cv v Hin. unfold greatest.
  destruct (all_values lv cv) as [|x rest]; [contradiction|].
  now apply fold_max_upper.
Qed.

Lemma greatest_attained (c ar inv ppe intg ap np ltd oi noi cogs sga dep ie : Z) :
  let lv := snapshot c ar inv ppe intg ap np ltd oi noi cogs sga dep ie in
  let cv := rolled_up c ar inv ppe intg ap np ltd oi noi cogs sga dep ie in
  In (greatest lv cv) (all_values lv cv).
Proof.
  intros lv cv. unfold greatest.
  remember (all_values lv cv) as l eqn:E.
  destruct l as [|x rest]; [discriminate E|].
  apply fold_max_attained.
Qed.

Lemma In_values_get (d : dict Z) (v : Z) :
  In v (dict_values d) -> NoDup (dict_keys d) ->
  exists k, dict_get k d = Some v.
Proof.
  induction d as [|[k' v'] d IH]; simpl; [contradiction|].
  intros [<-|Hin] Hnd.
  - exists k'. now rewrite String.eqb_refl.
  - inversion_clear Hnd as [|? ? Hk Hnd'].
    destruct (IH Hin Hnd') as (k & Hk').
    exists k. destruct (String.eqb k k') eqn:E; [|exact Hk'].
    apply String.eqb_eq in E. subst k'.
    exfalso. apply Hk. eapply dict_get_key, Hk'.
Qed.

Lemma snapshot_nonneg (c ar inv ppe intg ap np ltd oi noi cogs sga dep ie : Z) :
  Forall (fun v => 0 <= v)
    (dict_values (snapshot c ar inv ppe intg ap np ltd oi noi cogs sga dep ie)) ->
  0 <= c /\ 0 <= ar /\ 0 <= inv /\ 0 <= ppe /\ 0 <= intg /\ 0 <= ap /\
  0 <= np /\ 0 <= ltd /\ 0 <= oi /\ 0 <= noi /\ 0 <= cogs /\ 0 <= sga /\
  0 <= dep /\ 0 <= ie.
Proof.
  intros H. cbn [dict_values snapshot map snd] in H.
  repeat match goal with
         | H : Forall _ (_ :: _) |- _ => inversion_clear H
         end.
  repeat split; assumption.
Qed.

Lemma snapshot_zero (c ar inv ppe intg ap np ltd oi noi cogs sga dep ie : Z) :
  Forall (fun v => v = 0)
    (dict_values (snapshot c ar inv ppe intg ap np ltd oi noi cogs sga dep ie)) ->
  c = 0 /\ ar = 0 /\ inv = 0 /\ ppe = 0 /\ intg = 0 /\ ap = 0 /\
  np = 0 /\ ltd = 0 /\ oi = 0 /\ noi = 0 /\ cogs = 0 /\ sga = 0 /\
  dep = 0 /\ ie = 0.
Proof.
  intros H. cbn [dict_values snapshot map snd] in H.
  repeat match goal with
         | H : Forall _ (_ :: _) |- _ => inversion_clear H
         end.
  repeat split; assumption.
Qed.

(** Splits a membership in the accounts of a complete snapshot into the
    twenty-three accounts. *)
Ltac each_account H :=
  unfold snapshot, rolled_up in H; cbn [app In] in H;
  repeat (destruct H as [H|H]; [injection H as <- <-|]);
  [..|contradiction].

Lemma values_nonneg (c ar inv ppe intg ap np ltd oi noi cogs sga dep ie : Z) :
  let lv := snapshot c ar inv ppe intg ap np ltd oi noi cogs sga dep ie in
  let cv := rolled_up c ar inv ppe intg ap np ltd oi noi cogs sga dep ie in
  Forall (fun v => 0 <= v) (dict_values lv) ->
  forall name v, In (name, v) (lv ++ cv) -> name <> "Equity" -> 0 <= v.
Proof.
  intros lv cv Hpos name v Hin Hne. subst lv cv.
  apply snapshot_nonneg in Hpos.
  each_account Hin; try lia. now destruct Hne.
Qed.

Lemma values_zero (c ar inv ppe intg ap np ltd oi noi cogs sga dep ie : Z) :
  let lv := snapshot c ar inv ppe intg ap np ltd oi noi cogs sga dep ie in
  let cv := rolled_up c ar inv ppe intg ap np ltd oi noi cogs sga dep ie in
  Forall (fun v => v = 0) (dict_values lv) ->
  forall name v, In (name, v) (lv ++ cv) -> v = 0.
Proof.
  intros lv cv Hz name v Hin. subst lv cv.
  apply snapshot_zero in Hz.
  each_account Hin; lia.
Qed.

Lemma greatest_nonneg (c ar inv ppe intg ap np ltd oi noi cogs sga dep ie : Z) :
  let lv := snapshot c ar inv ppe intg ap np ltd oi noi cogs sga dep ie in
  let cv := rolled_up c ar inv ppe intg ap np ltd oi noi cogs sga dep ie in
  Forall (fun v => 0 <= v) (dict_values lv) -> 0 <= greatest lv cv.
Proof.
  intros lv cv Hpos.
  pose proof (greatest_upper c ar inv ppe intg ap np ltd oi noi cogs sga dep ie c)
    as Hc.
  apply snapshot_nonneg in Hpos.
  assert (c <= greatest lv cv) by (apply Hc; now left).
  lia.
Qed.

(** The divisor on any complete snapshot of integers, negative values
    included: [max(all_values) or 1], the maximum [m] of the leaf values
    and the computed values unless that is 0, and then 1. It is never 0.
    It is [max(1, m)] when no leaf value is negative, 1 when every value
    is 0, and [m] itself when [m] is negative. *)
Lemma divisor_is_maximum_or_1 :
  forall (k : nat) (vals : list Z),
    (length LEAF_NODES <= length vals)%nat ->
    let lv := leaf_vals_of LEAF_NODES vals in
    exists cv m d,
      computed_vals LEAF_NODES TREE computed_nodes lv (4 + k) = Ret cv /\
      py_max (all_values lv cv) = Ret m /\
      (forall v, In v (all_values lv cv) -> v <= m) /\
      (exists account, value_after lv cv account = Some m) /\
      all_values lv cv = dict_values (dict_merge lv cv) /\
      max_val lv cv = Ret d /\
      d = (if m =? 0 then 1 else m) /\
      d <> 0 /\
      (forall v, truediv v d = Ret (inject_Z v / inject_Z d)%Q) /\
      (Forall (fun v => 0 <= v) (dict_values lv) -> d = Z.max 1 m) /\
      (Forall (fun v => v = 0) (all_values lv cv) -> d = 1) /\
      (m < 0 -> d = m).
Proof.
  intros k vals Hlen lv. subst lv. complete_snapshot Hlen.
  set (lv := snapshot _ _ _ _ _ _ _ _ _ _ _ _ _ _).
  set (cv := rolled_up c ar inv ppe intg ap np ltd oi noi cogs sga dep ie).
  exists cv, (greatest lv cv), (or_1 (greatest lv cv)).
  split; [apply computed_vals_snapshot|].
  split; [apply py_max_snapshot|].
  split; [apply greatest_upper|].
  split.
  { pose proof (greatest_attained c ar inv ppe intg ap np ltd oi noi cogs sga
                                  dep ie) as Hin.
    cbv zeta in Hin. fold lv cv in Hin.
    unfold value_after. subst lv cv. rewrite merge_snapshot.
    rewrite all_values_snapshot in Hin.
    apply In_values_get; [exact Hin|].
    repeat constructor; cbn; intuition discriminate. }
  split.
  { subst lv cv. rewrite merge_snapshot. apply all_values_snapshot. }
  split.
  { unfold max_val. subst lv cv. rewrite py_max_snapshot. reflexivity. }
  split; [reflexivity|].
  split; [apply or_1_nonzero|].
  split; [intros v; apply truediv_ret, or_1_nonzero|].
  split.
  { intros Hpos. apply or_1_of_nonneg. now apply greatest_nonneg. }
  split.
  { intros Hz.
    pose proof (greatest_attained c ar inv ppe intg ap np ltd oi noi cogs sga
                                  dep ie) as Hin.
    cbv zeta in Hin. fold lv cv in Hin.
    rewrite Forall_forall in Hz. rewrite (Hz _ Hin). reflexivity. }
  apply or_1_of_negative.
Qed.



(** ** The visual weights *)

(** C4, as stated, fails: with liabilities and nothing else Equity is
    negative, and so is its weight, since the ratio is not clamped. *)
Lemma equity_weight_below_zero :
  exists cv ws w,
    recompute 4 (leaf_vals_of LEAF_NODES payables_only) = Ret (cv, ws) /\
    dict_get "Equity" cv = Some (-1000) /\
    dict_get "Equity" ws = Some w /\
    (w < 0)%Q.
Proof.
  eexists. eexists. eexists.
  split; [vm_compute; reflexivity|].
  split; [reflexivity|]. split; [reflexivity|]. reflexivity.
Qed.

Lemma weight_of_account (mv : Z) (items : dict Z) (name : string) (w : Q) :
  dict_get name (ratios mv items) = Some w ->
  exists v, dict_get name items = Some v /\ w = (inject_Z v / inject_Z mv)%Q.
Proof.
  rewrite dict_get_ratios.
  destruct (dict_get name items) as [v|]; [|discriminate].
  intros [= <-]. now exists v.
Qed.

(** C4, as the code has it. On a complete snapshot without a negative
    leaf value the callback divides without failure and every account,
    leaf, derived and balancing, gets the ratio of its value to the
    divisor. No ratio exceeds 1. The ratio of every account but Equity is
    at least 0, and the ratio of Equity has the sign of Equity. An account
    that holds the maximum has ratio 1 when the maximum is positive. When
    every leaf value is 0 the divisor is 1 and every ratio is 0. *)
Theorem weights_are_ratios_to_the_maximum :
  forall (k : nat) (vals : list Z),
    (length LEAF_NODES <= length vals)%nat ->
    let lv := leaf_vals_of LEAF_NODES vals in
    Forall (fun v => 0 <= v) (dict_values lv) ->
    exists cv ws m,
      recompute (4 + k) lv = Ret (cv, ws) /\
      py_max (all_values lv cv) = Ret m /\
      dict_keys ws = dict_keys LEAF_NODES ++ computed_nodes /\
      (forall account w,
          dict_get account ws = Some w ->
          exists v,
            value_after lv cv account = Some v /\
            w = (inject_Z v / inject_Z (Z.max 1 m))%Q /\
            (w <= 1)%Q /\
            (account <> "Equity" -> (0 <= w)%Q) /\
            (0 <= v -> (0 <= w)%Q) /\
            (v < 0 -> (w < 0)%Q) /\
            (v = m -> 0 < m -> (w == 1)%Q)) /\
      (Forall (fun v => v = 0) (dict_values lv) ->
       max_val lv cv = Ret 1 /\
       forall account w, dict_get account ws = Some w -> (w == 0)%Q).
Proof.
  intros k vals Hlen lv. subst lv. complete_snapshot Hlen. intros Hpos.
  set (lv := snapshot _ _ _ _ _ _ _ _ _ _ _ _ _ _) in *.
  set (cv := rolled_up c ar inv ppe intg ap np ltd oi noi cogs sga dep ie).
  pose proof (greatest_nonneg c ar inv ppe intg ap np ltd oi noi cogs sga dep ie
                Hpos) as Hm0.
  cbv zeta in Hm0. fold lv cv in Hm0.
  assert (Hd : or_1 (greatest lv cv) = Z.max 1 (greatest lv cv))
    by now apply or_1_of_nonneg.
  exists cv, (ratios (or_1 (greatest lv cv)) (lv ++ cv)), (greatest lv cv).
  split; [apply recompute_snapshot|].
  split; [apply py_max_snapshot|].
  split; [rewrite dict_keys_ratios; reflexivity|].
  split.
  - intros account w Hw.
    apply weight_of_account in Hw. destruct Hw as (v & Hv & ->).
    exists v. unfold value_after. subst lv cv. rewrite merge_snapshot.
    set (lv := snapshot _ _ _ _ _ _ _ _ _ _ _ _ _ _) in *.
    set (cv := rolled_up c ar inv ppe intg ap np ltd oi noi cogs sga dep ie) in *.
    split; [exact Hv|]. rewrite Hd. split; [reflexivity|].
    assert (Hle : v <= greatest lv cv).
    { apply greatest_upper. subst lv cv. rewrite all_values_snapshot.
      eapply dict_get_value, Hv. }
    split; [apply ratio_le_1; lia|].
    split.
    { intros Hne. apply ratio_nonneg; [lia|].
      apply (values_nonneg c ar inv ppe intg ap np ltd oi noi cogs sga dep ie
               Hpos account v); [|exact Hne].
      now apply dict_get_In. }
    split; [intros Hv0; apply ratio_nonneg; lia|].
    split; [intros Hv0; apply ratio_negative; lia|].
    intros -> Hm. replace (Z.max 1 (greatest lv cv)) with (greatest lv cv) by lia.
    apply ratio_self. lia.
  - intros Hz. split.
    + unfold max_val. subst lv cv. rewrite py_max_snapshot. cbn [obind].
      f_equal.
      set (lv := snapshot _ _ _ _ _ _ _ _ _ _ _ _ _ _) in *.
      set (cv := rolled_up c ar inv ppe intg ap np ltd oi noi cogs sga dep ie) in *.
      pose proof (greatest_attained c ar inv ppe intg ap np ltd oi noi cogs sga
                                    dep ie) as Hin.
      cbv zeta in Hin. fold lv cv in Hin.
      subst lv cv. rewrite all_values_snapshot in Hin.
      unfold dict_values in Hin. apply in_map_iff in Hin.
      destruct Hin as ([name v] & Ev & Hin). cbn [snd] in Ev.
      rewrite <- Ev.
      rewrite (values_zero c ar inv ppe intg ap np ltd oi noi cogs sga dep ie
                 Hz name v Hin).
      reflexivity.
    + intros account w Hw.
      apply weight_of_account in Hw. destruct Hw as (v & Hv & ->).
      apply dict_get_In in Hv.
      rewrite (values_zero c ar inv ppe intg ap np ltd oi noi cogs sga dep ie
                 Hz account v Hv).
      apply ratio_zero.
Qed.

Lemma weights_are_ratios_to_the_maximum_witness :
  (length LEAF_NODES <= length payables_only)%nat /\
  Forall (fun v => 0 <= v) (dict_values (leaf_vals_of LEAF_NODES payables_only)) /\
  exists cv ws m,
    recompute (4 + 0) (leaf_vals_of LEAF_NODES payables_only) = Ret (cv, ws) /\
    py_max (all_values (leaf_vals_of LEAF_NODES payables_only) cv) = Ret m /\
    dict_keys ws = dict_keys LEAF_NODES ++ computed_nodes /\
    (forall account w,
        dict_get account ws = Some w ->
        exists v,
          value_after (leaf_vals_of LEAF_NODES payables_only) cv account
          = Some v /\
          w = (inject_Z v / inject_Z (Z.max 1 m))%Q /\
          (w <= 1)%Q /\
          (account <> "Equity" -> (0 <= w)%Q) /\
          (0 <= v -> (0 <= w)%Q) /\
          (v < 0 -> (w < 0)%Q) /\
          (v = m -> 0 < m -> (w == 1)%Q)) /\
    (Forall (fun v => v = 0)
            (dict_values (leaf_vals_of LEAF_NODES payables_only)) ->
     max_val (leaf_vals_of LEAF_NODES payables_only) cv = Ret 1 /\
     forall account w, dict_get account ws = Some w -> (w == 0)%Q).
Proof.
  assert (Hlen : (length LEAF_NODES <= length payables_only)%nat)
    by (simpl; lia).
  assert (Hpos : Forall (fun v => 0 <= v)
                        (dict_values (leaf_vals_of LEAF_NODES payables_only)))
    by (cbn; repeat (apply Forall_cons; [lia|]); apply Forall_nil).
  split; [exact Hlen|]. split; [exact Hpos|].
  exact (weights_are_ratios_to_the_maximum 0 payables_only Hlen Hpos).
Defined.

(** ** The scenario of the reference values *)

(** C5, as stated, fails: after the raise PPE is not the maximum and its
    weight is not 1; the maximum is Assets, 275000. *)
Lemma raised_PPE_weight_is_not_1 :
  exists cv ws w,
    recompute 4 (leaf_vals_of LEAF_NODES raised_values) = Ret (cv, ws) /\
    py_max (all_values (leaf_vals_of LEAF_NODES raised_values) cv)
    = Ret 275000 /\
    dict_get "Assets" cv = Some 275000 /\
    dict_get "PPE" ws = Some w /\
    ~ (w == 1)%Q.
Proof.
  eexists. eexists. eexists.
  split; [vm_compute; reflexivity|].
  split; [reflexivity|]. split; [reflexivity|]. split; [reflexivity|].
  vm_compute. discriminate.
Qed.

Lemma recompute_fuel (k : nat) (vals : list Z) :
  (length LEAF_NODES <= length vals)%nat ->
  recompute (4 + k) (leaf_vals_of LEAF_NODES vals)
  = recompute 4 (leaf_vals_of LEAF_NODES vals).
Proof.
  intros Hlen. complete_snapshot Hlen.
  rewrite (recompute_snapshot k). symmetry. apply (recompute_snapshot 0).
Qed.

(** C5, as the code has it. From the reference values, raising PPE to
    240000 raises NonCurrentAssets, Assets and Equity by 200000 each. The
    maximum goes from 75000 to 275000 and is the value of Assets both
    times, so the weight of Assets stays 1; the weight of PPE becomes
    240000/275000. The weight of every account whose value has not
    changed is scaled by 75000/275000. *)
Theorem raising_PPE :
  forall (k : nat),
  exists cv ws cv' ws',
    recompute (4 + k) (leaf_vals_of LEAF_NODES reference_values)
    = Ret (cv, ws) /\
    recompute (4 + k) (leaf_vals_of LEAF_NODES raised_values)
    = Ret (cv', ws') /\
    dict_get "NonCurrentAssets" cv = Some 45000 /\
    dict_get "NonCurrentAssets" cv' = Some (45000 + 200000) /\
    dict_get "Assets" cv = Some 75000 /\
    dict_get "Assets" cv' = Some (75000 + 200000) /\
    dict_get "Equity" cv = Some 44000 /\
    dict_get "Equity" cv' = Some (44000 + 200000) /\
    py_max (all_values (leaf_vals_of LEAF_NODES reference_values) cv)
    = Ret 75000 /\
    py_max (all_values (leaf_vals_of LEAF_NODES raised_values) cv')
    = Ret 275000 /\
    (exists w w', dict_get "Assets" ws = Some w /\
                  dict_get "Assets" ws' = Some w' /\
                  (w == 1)%Q /\ (w' == 1)%Q) /\
    (exists w w', dict_get "PPE" ws = Some w /\
                  dict_get "PPE" ws' = Some w' /\
                  (w == 40000 # 75000)%Q /\ (w' == 240000 # 275000)%Q) /\
    Forall (fun account =>
              exists v w w',
                value_after (leaf_vals_of LEAF_NODES reference_values) cv account
                = Some v /\
                value_after (leaf_vals_of LEAF_NODES raised_values) cv' account
                = Some v /\
                dict_get account ws = Some w /\
                dict_get account ws' = Some w' /\
                (w' == w * (75000 # 275000))%Q /\
                (w' < w)%Q)
           unchanged_accounts.
Proof.
  intros k.
  rewrite !recompute_fuel by (simpl; lia).
  eexists. eexists. eexists. eexists.
  split; [vm_compute; reflexivity|].
  split; [vm_compute; reflexivity|].
  do 8 (split; [reflexivity|]).
  split; [eexists; eexists; repeat (split; [reflexivity|]); reflexivity|].
  split; [eexists; eexists; repeat (split; [reflexivity|]); reflexivity|].
  repeat (apply Forall_cons;
          [eexists; eexists; eexists;
           do 4 (split; [reflexivity|]); split; reflexivity|]).
  apply Forall_nil.
Qed.

(** ** The root synthesis node *)

(** C8. "Equation" is a node of the graph and nothing else: it is not
    one of the computed nodes, so the callback gives it no value and no
    weight; it is the child of no entry of [TREE]; [total] would give 0
    for it; the values over which the maximum is taken are those of the
    leaves and of the computed nodes; and Equity is computed from the
    four branch roots alone. *)
Theorem equation_is_not_computed :
  forall (k : nat) (vals : list Z),
    (length LEAF_NODES <= length vals)%nat ->
    let lv := leaf_vals_of LEAF_NODES vals in
    exists cv ws,
      recompute (4 + k) lv = Ret (cv, ws) /\
      In "Equation" all_nodes /\
      ~ In "Equation" computed_nodes /\
      dict_keys cv = computed_nodes /\
      dict_get "Equation" cv = None /\
      dict_get "Equation" ws = None /\
      value_after lv cv "Equation" = None /\
      (forall account kids,
          dict_get account TREE = Some kids -> ~ In "Equation" kids) /\
      total LEAF_NODES TREE lv (4 + k) "Equation" = Ret 0 /\
      all_values lv cv = dict_values (dict_merge lv cv) /\
      ~ In "Equation" (dict_keys (dict_merge lv cv)) /\
      exists assets liabilities income expenses,
        total LEAF_NODES TREE lv (3 + k) "Assets" = Ret assets /\
        total LEAF_NODES TREE lv (3 + k) "Liabilities" = Ret liabilities /\
        total LEAF_NODES TREE lv (3 + k) "Income" = Ret income /\
        total LEAF_NODES TREE lv (3 + k) "Expenses" = Ret expenses /\
        dict_get "Equity" cv = Some (assets + income - expenses - liabilities).
Proof.
  intros k vals Hlen lv. subst lv. complete_snapshot Hlen.
  eexists. eexists. split; [apply recompute_snapshot|].
  split; [vm_compute; tauto|].
  split; [vm_compute; intuition discriminate|].
  split; [reflexivity|].
  split; [reflexivity|].
  split; [rewrite dict_get_ratios; reflexivity|].
  split; [unfold value_after; rewrite merge_snapshot; reflexivity|].
  split.
  { intros account kids Hkids. apply dict_get_In in Hkids. simpl in Hkids.
    repeat (destruct Hkids as [Hkids|Hkids]; [injection Hkids as <- <-|]);
      try contradiction; simpl; intuition discriminate. }
  split; [reflexivity|].
  split; [rewrite merge_snapshot; apply all_values_snapshot|].
  split; [rewrite merge_snapshot; cbn; intuition discriminate|].
  do 4 eexists. repeat (split; [cbn; reflexivity|]). reflexivity.
Qed.

Lemma equation_is_not_computed_witness :
  (length LEAF_NODES <= length reference_values)%nat /\
  exists cv ws,
    recompute (4 + 0) (leaf_vals_of LEAF_NODES reference_values) = Ret (cv, ws) /\
    In "Equation" all_nodes /\
    ~ In "Equation" computed_nodes /\
    dict_keys cv = computed_nodes /\
    dict_get "Equation" cv = None /\
    dict_get "Equation" ws = None /\
    value_after (leaf_vals_of LEAF_NODES reference_values) cv "Equation" = None /\
    (forall account kids,
        dict_get account TREE = Some kids -> ~ In "Equation" kids) /\
    total LEAF_NODES TREE (leaf_vals_of LEAF_NODES reference_values) (4 + 0)
          "Equation" = Ret 0 /\
    all_values (leaf_vals_of LEAF_NODES reference_values) cv
    = dict_values (dict_merge (leaf_vals_of LEAF_NODES reference_values) cv) /\
    ~ In "Equation"
         (dict_keys (dict_merge (leaf_vals_of LEAF_NODES reference_values) cv)) /\
    exists assets liabilities income expenses,
      total LEAF_NODES TREE (leaf_vals_of LEAF_NODES reference_values) (3 + 0)
            "Assets" = Ret assets /\
      total LEAF_NODES TREE (leaf_vals_of LEAF_NODES reference_values) (3 + 0)
            "Liabilities" = Ret liabilities /\
      total LEAF_NODES TREE (leaf_vals_of LEAF_NODES reference_values) (3 + 0)
            "Income" = Ret income /\
      total LEAF_NODES TREE (leaf_vals_of LEAF_NODES reference_values) (3 + 0)
            "Expenses" = Ret expenses /\
      dict_get "Equity" cv = Some (assets + income - expenses - liabilities).
Proof.
  split.
  - simpl. lia.
  - apply (equation_is_not_computed 0 reference_values). simpl. lia.
Defined.

(** ** The callback returns what the engine computes *)

Lemma dict_get_set_same {V : Type} (k : string) (v : V) (d : dict V) :
  dict_get k (dict_set k v d) = Some v.
Proof.
  induction d as [|[k' v'] d IH]; simpl.
  - now rewrite String.eqb_refl.
  - destruct (String.eqb k k') eqn:E; simpl; rewrite E; [reflexivity|exact IH].
Qed.

Lemma dict_get_set_other {V : Type} (k k0 : string) (v : V) (d : dict V) :
  k0 <> k -> dict_get k0 (dict_set k v d) = dict_get k0 d.
Proof.
  intros Hne. induction d as [|[k' v'] d IH]; simpl.
  - apply String.eqb_neq in Hne. now rewrite Hne.
  - destruct (String.eqb k k') eqn:E; simpl.
    + apply String.eqb_eq in E. subst k'.
      apply String.eqb_neq in Hne. now rewrite Hne.
    + destruct (String.eqb k0 k'); [reflexivity|exact IH].
Qed.

(** The dict comprehension binds every key it goes through and keeps the
    keys it started with. *)
Lemma dict_comp_keys (ln : dict Z) (tr : dict (list string)) (lv : dict Z)
    (fuel : nat) (keys : list string) :
  forall acc cv,
    dict_comp ln tr lv fuel keys acc = Ret cv ->
    forall n, In n keys \/ dict_mem n acc = true -> dict_mem n cv = true.
Proof.
  induction keys as [|key keys IH]; intros acc cv Hcv n Hn; simpl in Hcv.
  - injection Hcv as <-. destruct Hn as [[]|Hn]. exact Hn.
  - destruct (total ln tr lv fuel key) as [v| |]; try discriminate.
    simpl in Hcv. apply (IH _ _ Hcv).
    destruct Hn as [[<-|Hn]|Hn].
    + right. unfold dict_mem. now rewrite dict_get_set_same.
    + now left.
    + right. unfold dict_mem in *.
      destruct (string_dec n key) as [->|Hne].
      * now rewrite dict_get_set_same.
      * now rewrite dict_get_set_other.
Qed.

Lemma getitems_ret (cv : dict Z) (keys : list string) :
  (forall n, In n keys -> dict_mem n cv = true) ->
  exists outs,
    getitems cv keys = Ret outs /\
    map Some outs = map (fun n => dict_get n cv) keys.
Proof.
  induction keys as [|key keys IH]; intros Hk.
  - now exists [].
  - destruct IH as (outs & E & Hm); [intros n Hn; apply Hk; now right|].
    specialize (Hk key (or_introl eq_refl)). unfold dict_mem in Hk.
    simpl. unfold dict_getitem.
    destruct (dict_get key cv) as [v|]; [|discriminate].
    exists (v :: outs). simpl. rewrite E. simpl. split; [reflexivity|].
    now rewrite Hm.
Qed.

(** When the engine gives its two maps, the callback returns the values
    of the first in the order of [computed_nodes] and a new stylesheet:
    the items of the base stylesheet, then one rule per weight of the
    second. When the engine fails, so does the callback, and the state is
    as it was. *)
Lemma update_returns_recompute (fuel : nat) (vals : list Z) (w : world)
    (base : list loc) (cv : dict Z) (ws : dict Q) :
  loaded w ->
  nth_error (heap w) (g_stylesheet w) = Some (OList base) ->
  recompute fuel (leaf_vals_of LEAF_NODES vals) = Ret (cv, ws) ->
  exists outs,
    map Some outs = map (fun n => dict_get n cv) computed_nodes /\
    update_graph_and_totals fuel vals w
    = (set_heap
         (heap w
          ++ OList (base ++ seq (S (length (heap w))) (length ws))
          :: map (fun kw => size_rule (fst kw) (node_size (snd kw))) ws) w,
       Ret (length (heap w), outs)).
Proof.
  intros (Hl & Ht & Hn) Hbase Hr.
  unfold recompute, recompute_with in Hr.
  destruct (computed_vals LEAF_NODES TREE computed_nodes _ fuel)
    as [cv0| |] eqn:Hcv; try discriminate.
  cbn [obind] in Hr. unfold max_val in Hr.
  destruct (py_max _) as [m| |] eqn:Hm; try discriminate.
  cbn [obind] in Hr.
  rewrite (visual_weights_ret _ _ (or_1_nonzero m)) in Hr.
  cbn [obind] in Hr. injection Hr as <- <-.
  destruct (getitems_ret cv0 computed_nodes) as (outs & Hout & Hmap).
  { intros n Hin. apply (dict_comp_keys _ _ _ _ _ _ _ Hcv). now left. }
  exists outs. split; [exact Hmap|].
  rewrite update_eq. cbv zeta. rewrite Hl, Ht, Hn, Hcv, Hm, Hbase, Hout.
  cbn [obind]. unfold ratios, size_rules. rewrite map_map, length_map.
  reflexivity.
Qed.

Lemma update_fails_with_recompute (fuel : nat) (vals : list Z) (w : world)
    (e : exn) :
  loaded w ->
  recompute fuel (leaf_vals_of LEAF_NODES vals) = Raise e ->
  update_graph_and_totals fuel vals w = (w, Raise e).
Proof.
  intros (Hl & Ht & Hn) Hr.
  unfold recompute, recompute_with in Hr.
  rewrite update_eq. cbv zeta. rewrite Hl, Ht, Hn.
  destruct (computed_vals LEAF_NODES TREE computed_nodes _ fuel)
    as [cv0|e0|]; try discriminate; [|now injection Hr as ->].
  cbn [obind] in Hr. unfold max_val in Hr.
  destruct (py_max _) as [m|e0|]; try discriminate; [|now injection Hr as ->].
  cbn [obind] in Hr.
  rewrite (visual_weights_ret _ _ (or_1_nonzero m)) in Hr. discriminate.
Qed.

(** * Further properties of the module *)

(** ** Labels and classes of the graph *)

Lemma replace_length (old new : ascii) (s : string) :
  String.length (replace old new s) = String.length s.
Proof. induction s as [|c s IH]; simpl; [reflexivity|now rewrite IH]. Qed.

Lemma replace_get (old new : ascii) (s : string) (i : nat) :
  String.get i (replace old new s)
  = option_map (fun c => if Ascii.eqb c old then new else c) (String.get i s).
Proof.
  revert i. induction s as [|c s IH]; intros [|i]; simpl; try reflexivity.
  apply IH.
Qed.

(** X1. The label [make_node] gives a node, and [slider] gives its
    label, is the id with every underscore turned into a space: it has the
    length of the id, the same character wherever the id has no
    underscore, a space wherever it has one, and no underscore at all. *)
Theorem labels_replace_underscores :
  forall (nid cls : string) (value : Z) (disabled : bool),
  exists label,
    make_node nid cls = Node nid label cls /\
    label_text (slider nid value disabled) = label /\
    String.length label = String.length nid /\
    (forall i c, String.get i nid = Some c ->
                 String.get i label = Some (if Ascii.eqb c "_" then " "%char else c)) /\
    (forall i c, String.get i label = Some c -> c <> "_"%char).
Proof.
  intros nid cls value disabled. exists (replace "_" " " nid).
  split; [reflexivity|]. split; [reflexivity|].
  split; [apply replace_length|]. split.
  - intros i c Hc. now rewrite replace_get, Hc.
  - intros i c. rewrite replace_get.
    destruct (String.get i nid) as [c0|]; [|discriminate].
    simpl. intros [= <-]. destruct (Ascii.eqb c0 "_") eqn:E.
    + discriminate.
    + now apply Ascii.eqb_neq.
Qed.

(** X2. Whatever its id, a node gets a class for which the stylesheet
    of the graph has a background colour: the class of [CLASS_MAP] when the
    id is a key of it, "asset" otherwise. *)
Theorem every_node_class_has_a_colour :
  forall (nid : string),
  exists cls colour,
    dict_get_default nid CLASS_MAP "asset" = cls /\
    (dict_get nid CLASS_MAP = None -> cls = "asset") /\
    In (ORule ("." ++ cls) [("background-color", SStr colour)]) base_rules.
Proof.
  intros nid. unfold dict_get_default.
  destruct (in_dec string_dec nid (dict_keys CLASS_MAP)) as [Hin|Hout].
  - simpl in Hin.
    repeat (destruct Hin as [<-|Hin];
            [eexists; eexists; split; [reflexivity|];
             split; [discriminate|]; simpl; tauto|]).
    contradiction.
  - rewrite (dict_get_not_key _ _ Hout).
    eexists. eexists. split; [reflexivity|]. split; [reflexivity|].
    simpl. tauto.
Qed.

(** ** The computed nodes *)

Lemma insert_sorted_In (x y : string) (l : list string) :
  In y (insert_sorted x l) <-> y = x \/ In y l.
Proof.
  induction l as [|z l IH]; simpl.
  - intuition.
  - destruct (String.leb x z); simpl; [intuition|].
    rewrite IH. intuition.
Qed.

Lemma sorted_In (y : string) (l : list string) : In y (sorted l) <-> In y l.
Proof.
  induction l as [|x l IH]; simpl; [reflexivity|].
  rewrite insert_sorted_In, IH. intuition.
Qed.

Lemma insert_sorted_NoDup (x : string) (l : list string) :
  ~ In x l -> NoDup l -> NoDup (insert_sorted x l).
Proof.
  induction l as [|z l IH]; simpl; intros Hx Hnd.
  - constructor; [tauto|constructor].
  - destruct (String.leb x z).
    + constructor; [simpl; tauto|exact Hnd].
    + inversion_clear Hnd as [|? ? Hz Hl]. constructor.
      * rewrite insert_sorted_In. intuition.
      * apply IH; tauto.
Qed.

Lemma sorted_NoDup (l : list string) : NoDup l -> NoDup (sorted l).
Proof.
  induction 1 as [|x l Hx _ IH]; simpl; [constructor|].
  apply insert_sorted_NoDup; [now rewrite sorted_In|exact IH].
Qed.

Lemma insert_sorted_Sorted (x : string) (l : list string) :
  Sorted (fun a b => String.leb a b = true) l ->
  Sorted (fun a b => String.leb a b = true) (insert_sorted x l).
Proof.
  induction 1 as [|z l Hl IH Hz]; simpl.
  - repeat constructor.
  - destruct (String.leb x z) eqn:E.
    + constructor; [now constructor|now constructor].
    + constructor; [exact IH|].
      assert (Hzx : String.leb z x = true).
      { destruct (String.leb_total x z) as [H|H]; [congruence|exact H]. }
      destruct l as [|z' l]; simpl.
      * now constructor.
      * inversion_clear Hz. destruct (String.leb x z'); now constructor.
Qed.

Lemma sorted_Sorted (l : list string) :
  Sorted (fun a b => String.leb a b = true) (sorted l).
Proof.
  induction l as [|x l IH]; simpl; [constructor|].
  now apply insert_sorted_Sorted.
Qed.

Lemma fold_set_add_In (x : string) (l : list string) :
  In x (fold_right (set_add string_dec) (empty_set string) l) <-> In x l.
Proof.
  induction l as [|y l IH]; simpl; [reflexivity|].
  rewrite set_add_iff, IH. intuition.
Qed.

Lemma fold_set_add_NoDup (l : list string) :
  NoDup (fold_right (set_add string_dec) (empty_set string) l).
Proof.
  induction l as [|y l IH]; simpl; [constructor|].
  now apply set_add_nodup.
Qed.

Lemma all_nodes_of_In (ln : dict Z) (tr : dict (list string)) (n : string) :
  In n (all_nodes_of ln tr)
  <-> In n (dict_keys ln) \/ In n (dict_keys tr) \/ n = "Equity" \/ n = "Equation".
Proof.
  unfold all_nodes_of.
  rewrite !set_union_iff, !fold_set_add_In, !set_add_iff. simpl. intuition.
Qed.

Lemma all_nodes_of_NoDup (ln : dict Z) (tr : dict (list string)) :
  NoDup (all_nodes_of ln tr).
Proof.
  unfold all_nodes_of.
  repeat apply set_union_nodup; try apply fold_set_add_NoDup.
  repeat apply set_add_nodup. constructor.
Qed.

Lemma computed_nodes_of_In (ln : dict Z) (tr : dict (list string)) (n : string) :
  In n (computed_nodes_of ln tr)
  <-> (In n (dict_keys tr) \/ n = "Equity") /\
      ~ In n (dict_keys ln) /\ n <> "Equation".
Proof.
  unfold computed_nodes_of.
  rewrite sorted_In, !set_diff_iff, all_nodes_of_In. simpl.
  intuition congruence.
Qed.

Lemma computed_nodes_of_NoDup (ln : dict Z) (tr : dict (list string)) :
  NoDup (computed_nodes_of ln tr).
Proof.
  unfold computed_nodes_of.
  apply sorted_NoDup. repeat apply set_diff_nodup. apply all_nodes_of_NoDup.
Qed.

(** X3. Whatever the two tables, [computed_nodes] holds exactly the
    keys of [TREE] and "Equity", without the leaves and without
    "Equation"; it has no duplicate and is in ascending order. *)
Theorem computed_nodes_of_spec :
  forall (ln : dict Z) (tr : dict (list string)),
    (forall n,
        In n (computed_nodes_of ln tr)
        <-> (In n (dict_keys tr) \/ n = "Equity") /\
            ~ In n (dict_keys ln) /\ n <> "Equation") /\
    NoDup (computed_nodes_of ln tr) /\
    Sorted (fun a b => String.leb a b = true) (computed_nodes_of ln tr).
Proof.
  intros ln tr. split; [|split].
  - apply computed_nodes_of_In.
  - apply computed_nodes_of_NoDup.
  - apply sorted_Sorted.
Qed.

(** ** The elements of the graph *)

Lemma node_ids_app (a b : list element) :
  node_ids (a ++ b) = node_ids a ++ node_ids b.
Proof. unfold node_ids. apply flat_map_app. Qed.

Lemma edges_app (a b : list element) : edges (a ++ b) = edges a ++ edges b.
Proof. unfold edges. apply flat_map_app. Qed.

Lemma node_ids_nodes (f : string -> string) (l : list string) :
  node_ids (map (fun nid => make_node nid (f nid)) l) = l.
Proof. induction l as [|x l IH]; simpl; [reflexivity|now rewrite IH]. Qed.

Lemma edges_nodes (f : string -> string) (l : list string) :
  edges (map (fun nid => make_node nid (f nid)) l) = [].
Proof. induction l as [|x l IH]; simpl; [reflexivity|exact IH]. Qed.

Lemma node_ids_edges (p : string) (l : list string) :
  node_ids (map (make_edge p) l) = [].
Proof. induction l as [|x l IH]; simpl; [reflexivity|exact IH]. Qed.

Lemma edges_edges (p : string) (l : list string) :
  edges (map (make_edge p) l) = map (fun k => (p, k)) l.
Proof. induction l as [|x l IH]; simpl; [reflexivity|now rewrite IH]. Qed.

Lemma node_ids_tree (tr : dict (list string)) :
  node_ids (flat_map (fun pk => map (make_edge (fst pk)) (snd pk)) tr) = [].
Proof.
  induction tr as [|[p kids] tr IH]; simpl; [reflexivity|].
  now rewrite node_ids_app, node_ids_edges, IH.
Qed.

Lemma edges_tree (tr : dict (list string)) :
  edges (flat_map (fun pk => map (make_edge (fst pk)) (snd pk)) tr)
  = flat_map (fun pk => map (fun k => (fst pk, k)) (snd pk)) tr.
Proof.
  induction tr as [|[p kids] tr IH]; simpl; [reflexivity|].
  now rewrite edges_app, edges_edges, IH.
Qed.

Lemma node_ids_elements (ln : dict Z) (tr : dict (list string))
    (roots : list string) (cm : dict string) :
  node_ids (elements_of ln tr roots cm) = all_nodes_of ln tr.
Proof.
  unfold elements_of.
  rewrite !node_ids_app, node_ids_nodes, node_ids_tree, node_ids_edges.
  simpl. now rewrite app_nil_r.
Qed.

Lemma edges_elements (ln : dict Z) (tr : dict (list string))
    (roots : list string) (cm : dict string) :
  edges (elements_of ln tr roots cm)
  = flat_map (fun pk => map (fun k => (fst pk, k)) (snd pk)) tr
    ++ map (fun r => ("Equation", r)) roots ++ [("Equation", "Equity")].
Proof.
  unfold elements_of.
  rewrite !edges_app, edges_nodes, edges_tree, edges_edges. reflexivity.
Qed.

(** X4. Whatever the tables, the graph has one node for each leaf,
    each key of [TREE], "Equity" and "Equation", and no two nodes with the
    same id; its edges go from each key of [TREE] to its children and from
    "Equation" to the roots and to "Equity"; and when every child named
    in [TREE] and every root is a leaf or a key of [TREE], every edge
    joins two nodes of the graph. *)
Theorem elements_edges_join_nodes :
  forall (ln : dict Z) (tr : dict (list string)) (roots : list string)
         (cm : dict string),
    (forall parent kids child,
        In (parent, kids) tr -> In child kids ->
        In child (dict_keys ln) \/ In child (dict_keys tr)) ->
    (forall root,
        In root roots -> In root (dict_keys ln) \/ In root (dict_keys tr)) ->
    let els := elements_of ln tr roots cm in
    NoDup (node_ids els) /\
    (forall n,
        In n (node_ids els)
        <-> In n (dict_keys ln) \/ In n (dict_keys tr) \/
            n = "Equity" \/ n = "Equation") /\
    (forall s t,
        In (s, t) (edges els)
        <-> (exists kids, In (s, kids) tr /\ In t kids) \/
            (s = "Equation" /\ (In t roots \/ t = "Equity"))) /\
    (forall s t,
        In (s, t) (edges els) -> In s (node_ids els) /\ In t (node_ids els)).
Proof.
  intros ln tr roots cm Hkids Hroots els. subst els.
  rewrite node_ids_elements, edges_elements.
  assert (Hedges : forall s t,
             In (s, t)
                (flat_map (fun pk => map (fun k => (fst pk, k)) (snd pk)) tr
                 ++ map (fun r => ("Equation", r)) roots
                 ++ [("Equation", "Equity")])
             <-> (exists kids, In (s, kids) tr /\ In t kids) \/
                 (s = "Equation" /\ (In t roots \/ t = "Equity"))).
  { intros s t. rewrite !in_app_iff, in_flat_map. split.
    - intros [([p kids] & Hp & Hk)|[Hr|[Hq|Hf]]]; [| | |destruct Hf].
      + simpl in Hk. apply in_map_iff in Hk.
        destruct Hk as (k & [= <- <-] & Hk). left. now exists kids.
      + apply in_map_iff in Hr. destruct Hr as (r & [= <- <-] & Hr). auto.
      + injection Hq as <- <-. auto.
    - intros [(kids & Hp & Hk)|(-> & [Hr | ->])].
      + left. exists (s, kids). split; [exact Hp|].
        simpl. apply in_map_iff. now exists t.
      + right. left. apply in_map_iff. now exists t.
      + right. right. now left. }
  split; [apply all_nodes_of_NoDup|].
  split; [apply all_nodes_of_In|].
  split; [exact Hedges|].
  intros s t Hst. rewrite !all_nodes_of_In. apply Hedges in Hst.
  destruct Hst as [(kids & Hp & Hk)|(-> & [Hr | ->])].
  - split.
    + right. left. unfold dict_keys. change s with (fst (s, kids)).
      now apply in_map.
    + destruct (Hkids s kids t Hp Hk); auto.
  - split; [auto|]. destruct (Hroots t Hr); auto.
  - auto.
Qed.

Lemma elements_edges_join_nodes_witness :
  (forall parent kids child,
      In (parent, kids) TREE -> In child kids ->
      In child (dict_keys LEAF_NODES) \/ In child (dict_keys TREE)) /\
  (forall root,
      In root ROOTS -> In root (dict_keys LEAF_NODES) \/ In root (dict_keys TREE)) /\
  NoDup (node_ids elements) /\
  (forall n,
      In n (node_ids elements)
      <-> In n (dict_keys LEAF_NODES) \/ In n (dict_keys TREE) \/
          n = "Equity" \/ n = "Equation") /\
  (forall s t,
      In (s, t) (edges elements)
      <-> (exists kids, In (s, kids) TREE /\ In t kids) \/
          (s = "Equation" /\ (In t ROOTS \/ t = "Equity"))) /\
  (forall s t,
      In (s, t) (edges elements) ->
      In s (node_ids elements) /\ In t (node_ids elements)).
Proof.
  assert (H1 : forall parent kids child,
             In (parent, kids) TREE -> In child kids ->
             In child (dict_keys LEAF_NODES) \/ In child (dict_keys TREE)).
  { intros parent kids child Hp Hc. simpl in Hp.
    repeat (destruct Hp as [Hp|Hp]; [injection Hp as <- <-|]);
      try contradiction;
      simpl in Hc;
      repeat (destruct Hc as [<-|Hc]; [simpl; tauto|]); contradiction. }
  assert (H2 : forall root,
             In root ROOTS ->
             In root (dict_keys LEAF_NODES) \/ In root (dict_keys TREE)).
  { intros root Hr. simpl in Hr.
    repeat (destruct Hr as [<-|Hr]; [simpl; tauto|]). contradiction. }
  split; [exact H1|]. split; [exact H2|].
  exact (elements_edges_join_nodes LEAF_NODES TREE ROOTS CLASS_MAP H1 H2).
Defined.

(** ** The layout and the dependencies of the callback *)

Lemma slider_id_inj (a b : string) : ("slider-" ++ a)%string = ("slider-" ++ b)%string -> a = b.
Proof. simpl. now intros [= ->]. Qed.

Lemma slider_ids_of_leaves (ln : dict Z) :
  map (fun d => slider_id (div_slider d)) (leaf_sliders_of ln)
  = map (fun n => ("slider-" ++ n)%string) (dict_keys ln).
Proof.
  unfold leaf_sliders_of, dict_keys. rewrite !map_map. reflexivity.
Qed.

Lemma slider_ids_of_computed (nodes : list string) :
  map (fun d => slider_id (div_slider d)) (computed_sliders_of nodes)
  = map (fun n => ("slider-" ++ n)%string) nodes.
Proof. unfold computed_sliders_of. rewrite map_map. reflexivity. Qed.

Lemma layout_ids_of_eq (ln : dict Z) (nodes : list string) :
  layout_ids_of ln nodes
  = map (fun n => ("slider-" ++ n)%string) (dict_keys ln ++ nodes) ++ ["mindmap"].
Proof.
  unfold layout_ids_of.
  rewrite slider_ids_of_leaves, slider_ids_of_computed, map_app, <- app_assoc.
  reflexivity.
Qed.

Lemma NoDup_slider_ids (l : list string) :
  NoDup l -> NoDup (map (fun n => ("slider-" ++ n)%string) l).
Proof.
  induction 1 as [|x l Hx _ IH]; simpl; constructor; [|exact IH].
  intros Hin. apply in_map_iff in Hin. destruct Hin as (y & Hy & Hin).
  apply slider_id_inj in Hy. now subst y.
Qed.

(** X5. Whatever the tables (a dict has no two equal keys), no two
    components of the layout have the same id: the sliders of the leaves,
    those of the computed nodes and the graph. Every [Input] and [Output]
    of the callback names a component of the layout, no component is both
    an input and an output, and the label of every slider points at the
    slider it is laid out with. *)
Theorem layout_ids_are_unique :
  forall (ln : dict Z) (tr : dict (list string)),
    NoDup (dict_keys ln) ->
    let nodes := computed_nodes_of ln tr in
    NoDup (layout_ids_of ln nodes) /\
    (forall d,
        In d (mindmap_out :: computed_outputs_of nodes ++ leaf_inputs_of ln) ->
        In (dependency_id d) (layout_ids_of ln nodes)) /\
    (forall i o,
        In i (leaf_inputs_of ln) ->
        In o (mindmap_out :: computed_outputs_of nodes) ->
        dependency_id i <> dependency_id o) /\
    (forall d,
        In d (leaf_sliders_of ln ++ computed_sliders_of nodes) ->
        label_htmlFor d = slider_id (div_slider d)).
Proof.
  intros ln tr Hnd nodes. rewrite layout_ids_of_eq.
  assert (Hdisj : forall n, In n (dict_keys ln) -> ~ In n nodes).
  { intros n Hn Hc. apply computed_nodes_of_In in Hc. tauto. }
  assert (Hall : NoDup (dict_keys ln ++ nodes)).
  { apply NoDup_app; [exact Hnd|apply computed_nodes_of_NoDup|exact Hdisj]. }
  split; [|split; [|split]].
  - apply NoDup_app; [now apply NoDup_slider_ids|repeat constructor; simpl; tauto|].
    intros a Ha [<-|[]]. apply in_map_iff in Ha.
    destruct Ha as (n & Hn & _). simpl in Hn. discriminate.
  - intros d [<-|Hd].
    + apply in_or_app. right. now left.
    + apply in_or_app. left. rewrite map_app. apply in_or_app.
      apply in_app_or in Hd. destruct Hd as [Hd|Hd].
      * right. unfold computed_outputs_of in Hd. apply in_map_iff in Hd.
        destruct Hd as (n & <- & Hn). simpl. apply in_map_iff. now exists n.
      * left. unfold leaf_inputs_of in Hd. apply in_map_iff in Hd.
        destruct Hd as (n & <- & Hn). simpl. apply in_map_iff. now exists n.
  - intros i o Hi Ho. unfold leaf_inputs_of in Hi. apply in_map_iff in Hi.
    destruct Hi as (n & <- & Hn). destruct Ho as [<-|Ho].
    + simpl. discriminate.
    + unfold computed_outputs_of in Ho. apply in_map_iff in Ho.
      destruct Ho as (m & <- & Hm). cbn [dependency_id].
      intros E. apply slider_id_inj in E. subst m. exact (Hdisj n Hn Hm).
  - intros d Hd. apply in_app_or in Hd. destruct Hd as [Hd|Hd].
    + unfold leaf_sliders_of in Hd. apply in_map_iff in Hd.
      now destruct Hd as (nv & <- & _).
    + unfold computed_sliders_of in Hd. apply in_map_iff in Hd.
      now destruct Hd as (n & <- & _).
Qed.

Lemma LEAF_NODES_keys_NoDup : NoDup (dict_keys LEAF_NODES).
Proof. repeat constructor; simpl; intuition discriminate. Qed.

Lemma layout_ids_are_unique_witness :
  NoDup (dict_keys LEAF_NODES) /\
  NoDup (layout_ids_of LEAF_NODES computed_nodes) /\
  (forall d,
      In d (mindmap_out :: computed_outputs ++ leaf_inputs) ->
      In (dependency_id d) (layout_ids_of LEAF_NODES computed_nodes)) /\
  (forall i o,
      In i leaf_inputs -> In o (mindmap_out :: computed_outputs) ->
      dependency_id i <> dependency_id o) /\
  (forall d,
      In d (leaf_sliders ++ computed_sliders) ->
      label_htmlFor d = slider_id (div_slider d)).
Proof.
  split; [exact LEAF_NODES_keys_NoDup|].
  exact (layout_ids_are_unique LEAF_NODES TREE LEAF_NODES_keys_NoDup).
Defined.

(** ** The snapshot of line 184 *)

Lemma dict_set_absent {V : Type} (k : string) (v : V) (d : dict V) :
  ~ In k (dict_keys d) -> dict_set k v d = d ++ [(k, v)].
Proof.
  induction d as [|[k' v'] d IH]; simpl; intros Hk; [reflexivity|].
  destruct (String.eqb k k') eqn:E.
  - apply String.eqb_eq in E. subst. tauto.
  - rewrite IH by tauto. reflexivity.
Qed.

Lemma dict_of_pairs_from {V : Type} (pairs acc : dict V) :
  NoDup (dict_keys (acc ++ pairs)) ->
  fold_left (fun d kv => dict_set (fst kv) (snd kv) d) pairs acc = acc ++ pairs.
Proof.
  revert acc. induction pairs as [|[k v] pairs IH]; intros acc Hnd; simpl.
  - now rewrite app_nil_r.
  - rewrite dict_set_absent.
    + rewrite IH; rewrite <- app_assoc; [reflexivity|exact Hnd].
    + unfold dict_keys in Hnd. rewrite map_app in Hnd. simpl in Hnd.
      apply NoDup_remove_2 in Hnd. intros Hin. apply Hnd.
      apply in_or_app. now left.
Qed.

(** A list of pairs without two equal keys is the dict it makes. *)
Lemma dict_of_pairs_NoDup {V : Type} (pairs : dict V) :
  NoDup (dict_keys pairs) -> dict_of_pairs pairs = pairs.
Proof. intros H. apply (dict_of_pairs_from pairs []). exact H. Qed.

Lemma combine_keys {A B : Type} (l : list A) (l' : list B) :
  map fst (combine l l') = firstn (length l') l.
Proof.
  revert l'. induction l as [|x l IH]; intros [|y l']; simpl; try reflexivity.
  now rewrite IH.
Qed.

Lemma combine_values {A B : Type} (l : list A) (l' : list B) :
  map snd (combine l l') = firstn (length l) l'.
Proof.
  revert l'. induction l as [|x l IH]; intros [|y l']; simpl; try reflexivity.
  now rewrite IH.
Qed.

Lemma NoDup_firstn {A : Type} (n : nat) (l : list A) :
  NoDup l -> NoDup (firstn n l).
Proof.
  intros H. rewrite <- (firstn_skipn n l) in H.
  now apply NoDup_app_remove_r in H.
Qed.

Lemma leaf_vals_of_combine (ln : dict Z) (vals : list Z) :
  NoDup (dict_keys ln) ->
  leaf_vals_of ln vals
  = combine (dict_keys ln) (slice_last (length ln) vals).
Proof.
  intros Hnd. unfold leaf_vals_of. apply dict_of_pairs_NoDup.
  unfold dict_keys at 1. rewrite combine_keys. now apply NoDup_firstn.
Qed.

Lemma slice_last_short {A : Type} (n : nat) (l : list A) :
  (length l <= n)%nat -> slice_last n l = l.
Proof.
  intros H. destruct n; [reflexivity|]. unfold slice_last.
  replace (length l - S n)%nat with 0%nat by lia. reflexivity.
Qed.

Lemma slice_last_app {A : Type} (n : nat) (extra l : list A) :
  (n <= length l)%nat -> n <> 0%nat ->
  slice_last n (extra ++ l) = slice_last n l.
Proof.
  intros H Hn. destruct n; [contradiction|]. unfold slice_last.
  rewrite length_app, skipn_app.
  replace (length extra + length l - S n - length extra)%nat
    with (length l - S n)%nat by lia.
  rewrite skipn_all2 by lia. reflexivity.
Qed.

(** X6. The snapshot binds the leaves by position. Whatever the table
    of leaves (a dict has no two equal keys): with at least as many
    arguments as leaves, the leaves are bound in their order to the last
    arguments, and arguments before those are ignored; with fewer
    arguments, the first leaves are bound to them and the others are not
    bound at all. *)
Theorem snapshot_binds_by_position :
  forall (ln : dict Z) (vals : list Z),
    NoDup (dict_keys ln) ->
    ((length ln <= length vals)%nat ->
     dict_keys (leaf_vals_of ln vals) = dict_keys ln /\
     dict_values (leaf_vals_of ln vals)
     = skipn (length vals - length ln) vals /\
     forall extra, leaf_vals_of ln (extra ++ vals) = leaf_vals_of ln vals) /\
    ((length vals < length ln)%nat ->
     dict_keys (leaf_vals_of ln vals) = firstn (length vals) (dict_keys ln) /\
     dict_values (leaf_vals_of ln vals) = vals /\
     forall n, In n (skipn (length vals) (dict_keys ln)) ->
               dict_get n (leaf_vals_of ln vals) = None).
Proof.
  intros ln vals Hnd. rewrite (leaf_vals_of_combine ln vals Hnd).
  assert (Hlen : length (dict_keys ln) = length ln)
    by (unfold dict_keys; apply length_map).
  split.
  - intros Hle. unfold dict_keys at 1, dict_values.
    rewrite combine_keys, combine_values, Hlen.
    destruct (length ln) as [|n] eqn:En.
    + destruct ln; [|discriminate En]. simpl.
      split; [now destruct vals|]. split; [|reflexivity].
      unfold slice_last. rewrite Nat.sub_0_r, skipn_all. reflexivity.
    + rewrite <- En in *.
      assert (Hs : length (slice_last (length ln) vals) = length ln).
      { rewrite En. apply slice_last_length. lia. }
      rewrite Hs, <- Hlen, firstn_all, Hlen.
      rewrite <- Hs at 1. rewrite firstn_all.
      split; [reflexivity|]. split.
      * rewrite En. reflexivity.
      * intros extra. rewrite !(leaf_vals_of_combine _ _ Hnd).
        rewrite slice_last_app by lia. reflexivity.
  - intros Hlt. rewrite (slice_last_short _ vals) by lia.
    unfold dict_keys at 1, dict_values. rewrite combine_keys, combine_values.
    split; [reflexivity|]. split.
    + rewrite firstn_all2 by lia. reflexivity.
    + intros n Hn. apply dict_get_not_key.
      unfold dict_keys at 1. rewrite combine_keys. intros Hf.
      rewrite <- (firstn_skipn (length vals) (dict_keys ln)) in Hnd.
      apply NoDup_app_remove_l in Hnd as Hnd2.
      assert (Hx := Hnd).
      clear Hnd2.
      revert Hf Hn Hx. generalize (firstn (length vals) (dict_keys ln)).
      generalize (skipn (length vals) (dict_keys ln)).
      intros l2 l1 H1 H2 Hx.
      induction l1 as [|x l1 IH]; [contradiction|].
      simpl in Hx. inversion_clear Hx as [|? ? Hxn Hxl].
      destruct H1 as [->|H1].
      * apply Hxn. apply in_or_app. now right.
      * now apply IH.
Qed.

Lemma snapshot_binds_by_position_witness :
  NoDup (dict_keys LEAF_NODES) /\
  ((length LEAF_NODES <= length reference_values)%nat ->
   dict_keys (leaf_vals_of LEAF_NODES reference_values) = dict_keys LEAF_NODES /\
   dict_values (leaf_vals_of LEAF_NODES reference_values)
   = skipn (length reference_values - length LEAF_NODES) reference_values /\
   forall extra,
     leaf_vals_of LEAF_NODES (extra ++ reference_values)
     = leaf_vals_of LEAF_NODES reference_values) /\
  ((length reference_values < length LEAF_NODES)%nat ->
   dict_keys (leaf_vals_of LEAF_NODES reference_values)
   = firstn (length reference_values) (dict_keys LEAF_NODES) /\
   dict_values (leaf_vals_of LEAF_NODES reference_values) = reference_values /\
   forall n, In n (skipn (length reference_values) (dict_keys LEAF_NODES)) ->
             dict_get n (leaf_vals_of LEAF_NODES reference_values) = None).
Proof.
  split; [exact LEAF_NODES_keys_NoDup|].
  exact (snapshot_binds_by_position LEAF_NODES reference_values
           LEAF_NODES_keys_NoDup).
Defined.

Lemma dict_get_map_keys {V : Type} (f : string -> V) (keys : list string)
    (k : string) :
  In k keys -> dict_get k (map (fun n => (n, f n)) keys) = Some (f k).
Proof.
  induction keys as [|x keys IH]; simpl; [contradiction|].
  destruct (String.eqb k x) eqn:E.
  - apply String.eqb_eq in E. now subst.
  - intros [->|H]; [now rewrite String.eqb_refl in E|now apply IH].
Qed.

Lemma combine_map_r {A B : Type} (f : A -> B) (l : list A) :
  combine l (map f l) = map (fun x => (x, f x)) l.
Proof. induction l as [|x l IH]; simpl; [reflexivity|now rewrite IH]. Qed.

(** X7. The callback is wired to the sliders of the leaves: called
    with the values of its [Input]s in the order they are declared, it
    binds every leaf to the value of the slider of that leaf. *)
Theorem each_leaf_gets_the_value_of_its_slider :
  forall (ln : dict Z) (state : string -> Z),
    NoDup (dict_keys ln) ->
    let vals := map (fun d => state (dependency_id d)) (leaf_inputs_of ln) in
    length vals = length ln /\
    dict_keys (leaf_vals_of ln vals) = dict_keys ln /\
    forall nid,
      In nid (dict_keys ln) ->
      dict_get nid (leaf_vals_of ln vals) = Some (state ("slider-" ++ nid)%string).
Proof.
  intros ln state Hnd vals.
  assert (Hvals : vals = map (fun n => state ("slider-" ++ n)%string) (dict_keys ln)).
  { unfold vals, leaf_inputs_of. rewrite map_map. reflexivity. }
  assert (Hlen : length vals = length ln).
  { rewrite Hvals. unfold dict_keys. now rewrite !length_map. }
  assert (Hlv : leaf_vals_of ln vals
                = map (fun n => (n, state ("slider-" ++ n)%string)) (dict_keys ln)).
  { rewrite (leaf_vals_of_combine ln vals Hnd).
    rewrite slice_last_short by lia. rewrite Hvals. apply combine_map_r. }
  split; [exact Hlen|]. rewrite Hlv. split.
  - unfold dict_keys at 1. rewrite map_map. simpl. apply map_id.
  - intros nid Hin.
    exact (dict_get_map_keys (fun n => state ("slider-" ++ n)%string) _ nid Hin).
Qed.

Lemma each_leaf_gets_the_value_of_its_slider_witness :
  NoDup (dict_keys LEAF_NODES) /\
  length (map (fun d => Z.of_nat (String.length (dependency_id d))) leaf_inputs)
  = length LEAF_NODES /\
  dict_keys
    (leaf_vals_of LEAF_NODES
       (map (fun d => Z.of_nat (String.length (dependency_id d))) leaf_inputs))
  = dict_keys LEAF_NODES /\
  forall nid,
    In nid (dict_keys LEAF_NODES) ->
    dict_get nid
      (leaf_vals_of LEAF_NODES
         (map (fun d => Z.of_nat (String.length (dependency_id d))) leaf_inputs))
    = Some (Z.of_nat (String.length ("slider-" ++ nid)%string)).
Proof.
  split; [exact LEAF_NODES_keys_NoDup|].
  exact (each_leaf_gets_the_value_of_its_slider LEAF_NODES
           (fun i => Z.of_nat (String.length i)) LEAF_NODES_keys_NoDup).
Defined.

(** ** The callback: short calls, failures, returned values *)

(** X8. Called with fewer values than there are leaves, the callback
    raises [KeyError] on the first leaf left without a value, the one at
    the position of the number of values given ("Cash" for a call without
    values), and leaves the state as it was. *)
Theorem short_call_raises_KeyError :
  forall (k : nat) (vals : list Z) (w : world),
    loaded w ->
    (length vals < length LEAF_NODES)%nat ->
    exists leaf,
      nth_error (dict_keys LEAF_NODES) (length vals) = Some leaf /\
      update_graph_and_totals (4 + k) vals w = (w, Raise (KeyError leaf)).
Proof.
  intros k vals w (Hl & Ht & Hn) Hlen.
  assert (Hraise : forall leaf,
             find (fun n => negb (dict_mem n (leaf_vals_of LEAF_NODES vals)))
                  (dict_keys LEAF_NODES) = Some leaf ->
             update_graph_and_totals (4 + k) vals w = (w, Raise (KeyError leaf))).
  { intros leaf Hf. apply update_computed_raise. rewrite Hl, Ht, Hn.
    now apply computed_vals_first_missing. }
  change (length LEAF_NODES) with 14%nat in Hlen.
  do 14 (destruct vals as [|? vals];
         [eexists; split; [reflexivity|]; apply Hraise; reflexivity|]).
  simpl in Hlen. lia.
Qed.

Lemma short_call_raises_KeyError_witness :
  loaded module_world /\
  (length twelve_values < length LEAF_NODES)%nat /\
  exists leaf,
    nth_error (dict_keys LEAF_NODES) (length twelve_values) = Some leaf /\
    update_graph_and_totals (4 + 0) twelve_values module_world
    = (module_world, Raise (KeyError leaf)).
Proof.
  assert (Hl : loaded module_world) by (repeat split).
  assert (Hs : (length twelve_values < length LEAF_NODES)%nat) by (simpl; lia).
  split; [exact Hl|]. split; [exact Hs|].
  exact (short_call_raises_KeyError 0 twelve_values module_world Hl Hs).
Defined.

(** What the dict comprehension binds a key to. *)
Lemma dict_comp_get (ln : dict Z) (tr : dict (list string)) (lv : dict Z)
    (fuel : nat) (keys : list string) :
  forall acc cv,
    dict_comp ln tr lv fuel keys acc = Ret cv ->
    forall n,
      (In n keys ->
       exists v, total ln tr lv fuel n = Ret v /\ dict_get n cv = Some v) /\
      (~ In n keys -> dict_get n cv = dict_get n acc).
Proof.
  induction keys as [|key keys IH]; intros acc cv Hcv n; simpl in Hcv.
  - injection Hcv as <-. split; [contradiction|reflexivity].
  - destruct (total ln tr lv fuel key) as [v0| |] eqn:Hk; try discriminate.
    simpl in Hcv. destruct (IH _ _ Hcv n) as (IH1 & IH2).
    destruct (in_dec string_dec n keys) as [Hin|Hout].
    + split; [intros _; now apply IH1|]. intros Hn. destruct Hn. now right.
    + split.
      * intros [->|Hn]; [|contradiction].
        exists v0. split; [exact Hk|].
        rewrite (IH2 Hout). apply dict_get_set_same.
      * intros Hn. rewrite (IH2 Hout).
        apply dict_get_set_other. intros ->. apply Hn. now left.
Qed.

Lemma getitems_Forall2 (cv : dict Z) (keys : list string) (outs : list Z) :
  getitems cv keys = Ret outs ->
  Forall2 (fun n v => dict_get n cv = Some v) keys outs.
Proof.
  revert outs. induction keys as [|key keys IH]; intros outs H; simpl in H.
  - injection H as <-. constructor.
  - unfold dict_getitem in H.
    destruct (dict_get key cv) as [v|] eqn:Hk; [|discriminate].
    simpl in H. destruct (getitems cv keys) as [vs| |]; try discriminate.
    simpl in H. injection H as <-. constructor; [exact Hk|now apply IH].
Qed.

(** X9. Whatever the state, a call that returns gives, after the
    stylesheet, exactly one value for each computed node, in the order of
    [computed_nodes], which is the order of the [Output]s the callback
    declares: the value [total] computes for that node on the snapshot of
    the call. *)
Theorem callback_returns_one_value_per_output :
  forall (fuel : nat) (vals : list Z) (w w' : world) (s : loc)
         (outs : list Z),
    update_graph_and_totals fuel vals w = (w', Ret (s, outs)) ->
    length (mindmap_out :: computed_outputs_of (g_computed_nodes w))
    = S (length outs) /\
    Forall2 (fun (o : dependency) (v : Z) =>
               exists n,
                 o = Output ("slider-" ++ n)%string "value" /\
                 total (g_LEAF_NODES w) (g_TREE w)
                       (leaf_vals_of (g_LEAF_NODES w) vals) fuel n = Ret v)
            (computed_outputs_of (g_computed_nodes w)) outs.
Proof.
  intros fuel vals w w' s outs H.
  rewrite update_eq in H. cbv zeta in H.
  destruct (computed_vals _ _ _ _ fuel) as [cv| |] eqn:Hcv; try discriminate.
  destruct (py_max _) as [m| |]; try discriminate.
  destruct (nth_error (heap w) (g_stylesheet w)) as [[? ?|base]|];
    try discriminate.
  destruct (getitems cv (g_computed_nodes w)) as [outs'| |] eqn:Hout;
    try discriminate.
  cbn [obind] in H. injection H as _ _ <-.
  apply getitems_Forall2 in Hout.
  assert (HF : Forall2 (fun (o : dependency) (v : Z) =>
               exists n,
                 o = Output ("slider-" ++ n)%string "value" /\
                 total (g_LEAF_NODES w) (g_TREE w)
                       (leaf_vals_of (g_LEAF_NODES w) vals) fuel n = Ret v)
            (computed_outputs_of (g_computed_nodes w)) outs').
  { unfold computed_vals in Hcv.
    assert (Hget : forall n v,
               In n (g_computed_nodes w) -> dict_get n cv = Some v ->
               total (g_LEAF_NODES w) (g_TREE w)
                     (leaf_vals_of (g_LEAF_NODES w) vals) fuel n = Ret v).
    { intros n v Hin Hv.
      destruct (dict_comp_get _ _ _ _ _ _ _ Hcv n) as (H1 & _).
      destruct (H1 Hin) as (v' & Hv' & Hg). congruence. }
    clear Hcv. unfold computed_outputs_of.
    induction Hout as [|n v ns vs Hv _ IH]; simpl; constructor.
    - exists n. split; [reflexivity|]. apply Hget; [now left|exact Hv].
    - apply IH. intros n' v' Hin. apply Hget. now right. }
  split; [|exact HF].
  simpl. f_equal. now apply Forall2_length in HF.
Qed.

Lemma callback_returns_one_value_per_output_witness :
  exists w' s outs,
    update_graph_and_totals 4 reference_values module_world
    = (w', Ret (s, outs)) /\
    length (mindmap_out :: computed_outputs_of (g_computed_nodes module_world))
    = S (length outs) /\
    Forall2 (fun (o : dependency) (v : Z) =>
               exists n,
                 o = Output ("slider-" ++ n)%string "value" /\
                 total (g_LEAF_NODES module_world) (g_TREE module_world)
                       (leaf_vals_of (g_LEAF_NODES module_world) reference_values)
                       4 n = Ret v)
            (computed_outputs_of (g_computed_nodes module_world)) outs.
Proof.
  eexists. eexists. eexists.
  assert (H : update_graph_and_totals 4 reference_values module_world
              = (fst (update_graph_and_totals 4 reference_values module_world),
                 Ret (9%nat, [75000; 30000; 13000; 44000; 16000; 18000; 33000;
                              45000; 20000]))).
  { vm_compute. reflexivity. }
  split; [exact H|].
  exact (callback_returns_one_value_per_output _ _ _ _ _ _ H).
Defined.


(** ** The roll-up as a sum over leaves *)

Lemma fold_add_acc (l : list Z) (acc : Z) :
  fold_left Z.add l acc = acc + fold_left Z.add l 0.
Proof.
  revert acc. induction l as [|x l IH]; intros acc; simpl; [lia|].
  rewrite (IH (acc + x)), (IH x). lia.
Qed.

Lemma fold_add_app (a b : list Z) :
  fold_left Z.add (a ++ b) 0 = fold_left Z.add a 0 + fold_left Z.add b 0.
Proof. rewrite fold_left_app. apply fold_add_acc. Qed.

Lemma py_sum_ret_inv (g : string -> outcome Z) (kids : list string) :
  forall acc v,
    py_sum acc (map g kids) = Ret v ->
    exists xs,
      Forall2 (fun kid x => g kid = Ret x) kids xs /\
      v = fold_left Z.add xs acc.
Proof.
  induction kids as [|kid kids IH]; intros acc v H; simpl in H.
  - injection H as <-. exists []. split; [constructor|reflexivity].
  - destruct (g kid) as [x| |] eqn:Hk; try discriminate.
    simpl in H. destruct (IH _ _ H) as (xs & HF & Hv).
    exists (x :: xs). split; [now constructor|exact Hv].
Qed.

Lemma py_sum_shift (items : list (outcome Z)) (acc : Z) :
  py_sum acc items = obind (py_sum 0 items) (fun v => Ret (acc + v)).
Proof.
  revert acc. induction items as [|x items IH]; intros acc; simpl.
  - f_equal. lia.
  - destruct x as [v| |]; simpl; try reflexivity.
    rewrite (IH (acc + v)), (IH v).
    destruct (py_sum 0 items) as [s| |]; simpl; try reflexivity.
    f_equal. lia.
Qed.

Lemma py_sum_app (a b : list (outcome Z)) (acc : Z) :
  py_sum acc (a ++ b) = obind (py_sum acc a) (fun s => py_sum s b).
Proof.
  revert acc. induction a as [|x a IH]; intros acc; simpl; [reflexivity|].
  destruct x as [v| |]; simpl; try reflexivity. apply IH.
Qed.

(** Summing the sums of several generators is summing their items in
    one go: the same value, and the same first exception. *)
Lemma py_sum_flatten (f : string -> list (outcome Z)) (kids : list string)
    (acc : Z) :
  py_sum acc (map (fun kid => py_sum 0 (f kid)) kids)
  = py_sum acc (flat_map f kids).
Proof.
  revert acc. induction kids as [|kid kids IH]; intros acc; simpl.
  - reflexivity.
  - rewrite py_sum_app, (py_sum_shift (f kid) acc).
    destruct (py_sum 0 (f kid)) as [v| |]; simpl; try reflexivity.
    apply IH.
Qed.

Lemma map_flat_map {A B C : Type} (g : B -> C) (f : A -> list B) (l : list A) :
  map g (flat_map f l) = flat_map (fun x => map g (f x)) l.
Proof.
  induction l as [|x l IH]; simpl; [reflexivity|].
  now rewrite map_app, IH.
Qed.

Lemma py_sum_getitems_ret (lv : dict Z) (leaves : list string) (xs : list Z) :
  Forall2 (fun leaf x => dict_get leaf lv = Some x) leaves xs ->
  forall acc,
    py_sum acc (map (fun leaf => dict_getitem leaf lv) leaves)
    = Ret (fold_left Z.add xs acc).
Proof.
  induction 1 as [|leaf x leaves xs Hx _ IH]; intros acc; simpl.
  - reflexivity.
  - unfold dict_getitem at 1. rewrite Hx. simpl. apply IH.
Qed.

Lemma py_sum_getitems_raise (lv : dict Z) (bound : list string) (leaf : string)
    (rest : list string) :
  Forall (fun l => dict_mem l lv = true) bound ->
  dict_get leaf lv = None ->
  forall acc,
    py_sum acc (map (fun l => dict_getitem l lv) (bound ++ leaf :: rest))
    = Raise (KeyError leaf).
Proof.
  intros Hb Hl. induction Hb as [|l bound Hlb _ IH]; intros acc; simpl.
  - unfold dict_getitem at 1. now rewrite Hl.
  - unfold dict_getitem at 1. unfold dict_mem in Hlb.
    destruct (dict_get l lv); [|discriminate]. simpl. apply IH.
Qed.

(** X11. Whatever the tables and the snapshot: when the hierarchy has
    no cycle (a rank decreases from every key of [TREE] to its children)
    and "Equity" is the child of no entry, [total] returns on every
    account other than "Equity", and what it returns is what summing the
    values of the leaves below the account in one go returns. So it is
    the sum of the values the snapshot gives to those leaves, each taken
    as often as it is below the account (0 when there is none), when the
    snapshot has a value for each; and otherwise the [KeyError] of the
    first of them that has none. *)
Theorem total_is_sum_of_leaves_below :
  forall (ln : dict Z) (tr : dict (list string)) (lv : dict Z)
         (rank_of : string -> nat),
    (forall parent kids child,
        dict_get parent tr = Some kids -> In child kids ->
        (rank_of child < rank_of parent)%nat) ->
    (forall parent kids, dict_get parent tr = Some kids -> ~ In "Equity" kids) ->
    forall (fuel : nat) (node : string),
      node <> "Equity" ->
      (rank_of node < fuel)%nat ->
      let leaves := leaves_of ln tr fuel node in
      total ln tr lv fuel node
      = py_sum 0 (map (fun leaf => dict_getitem leaf lv) leaves) /\
      total ln tr lv fuel node <> Timeout /\
      (forall xs,
          Forall2 (fun leaf x => dict_get leaf lv = Some x) leaves xs ->
          total ln tr lv fuel node = Ret (fold_left Z.add xs 0)) /\
      (forall bound leaf rest,
          leaves = bound ++ leaf :: rest ->
          Forall (fun l => dict_mem l lv = true) bound ->
          dict_get leaf lv = None ->
          total ln tr lv fuel node = Raise (KeyError leaf)).
Proof.
  intros ln tr lv rank_of Hrank Heq fuel node Hne Hfuel leaves.
  assert (Hsum : forall fuel node,
             node <> "Equity" -> (rank_of node < fuel)%nat ->
             total ln tr lv fuel node
             = py_sum 0 (map (fun leaf => dict_getitem leaf lv)
                             (leaves_of ln tr fuel node))).
  { clear fuel node Hne Hfuel leaves.
    induction fuel as [|fuel IH]; intros node Hne Hfuel; [lia|].
    rewrite total_S. cbn [leaves_of].
    destruct (dict_mem node ln).
    - simpl. destruct (dict_getitem node lv); reflexivity.
    - destruct (dict_get node tr) as [kids|] eqn:Hk.
      + rewrite map_flat_map, <- py_sum_flatten. f_equal.
        apply map_ext_in. intros kid Hin. apply IH.
        * intros ->. exact (Heq node kids Hk Hin).
        * specialize (Hrank node kids kid Hk Hin). lia.
      + apply String.eqb_neq in Hne. now rewrite Hne. }
  specialize (Hsum fuel node Hne Hfuel). fold leaves in Hsum.
  split; [exact Hsum|]. rewrite Hsum. split; [|split].
  - apply py_sum_no_timeout. apply Forall_map, Forall_forall.
    intros leaf _. apply dict_getitem_no_timeout.
  - intros xs HF. now apply py_sum_getitems_ret.
  - intros bound leaf rest -> Hb Hl. now apply py_sum_getitems_raise.
Qed.

Lemma total_is_sum_of_leaves_below_witness :
  (forall parent kids child,
      dict_get parent TREE = Some kids -> In child kids ->
      (rank child < rank parent)%nat) /\
  (forall parent kids, dict_get parent TREE = Some kids -> ~ In "Equity" kids) /\
  "Assets" <> "Equity" /\
  (rank "Assets" < 3)%nat /\
  total LEAF_NODES TREE LEAF_NODES 3 "Assets"
  = py_sum 0 (map (fun leaf => dict_getitem leaf LEAF_NODES)
                  (leaves_of LEAF_NODES TREE 3 "Assets")) /\
  total LEAF_NODES TREE LEAF_NODES 3 "Assets" <> Timeout /\
  (forall xs,
      Forall2 (fun leaf x => dict_get leaf LEAF_NODES = Some x)
              (leaves_of LEAF_NODES TREE 3 "Assets") xs ->
      total LEAF_NODES TREE LEAF_NODES 3 "Assets" = Ret (fold_left Z.add xs 0)) /\
  (forall bound leaf rest,
      leaves_of LEAF_NODES TREE 3 "Assets" = bound ++ leaf :: rest ->
      Forall (fun l => dict_mem l LEAF_NODES = true) bound ->
      dict_get leaf LEAF_NODES = None ->
      total LEAF_NODES TREE LEAF_NODES 3 "Assets" = Raise (KeyError leaf)).
Proof.
  assert (H1 : forall parent kids child,
             dict_get parent TREE = Some kids -> In child kids ->
             (rank child < rank parent)%nat).
  { intros parent kids child Hp Hc. apply rank_child. now exists kids. }
  assert (H2 : forall parent kids,
             dict_get parent TREE = Some kids -> ~ In "Equity" kids).
  { intros parent kids Hk. apply dict_get_In in Hk. simpl in Hk.
    repeat (destruct Hk as [Hk|Hk]; [injection Hk as <- <-|]);
      try contradiction; simpl; intuition discriminate. }
  assert (H3 : "Assets" <> "Equity") by discriminate.
  assert (H4 : (rank "Assets" < 3)%nat) by (vm_compute; lia).
  split; [exact H1|]. split; [exact H2|]. split; [exact H3|].
  split; [exact H4|].
  exact (total_is_sum_of_leaves_below LEAF_NODES TREE LEAF_NODES rank H1 H2 3
           "Assets" H3 H4).
Defined.

Lemma leaves_of_known (node : string) :
  In node (dict_keys LEAF_NODES ++ dict_keys TREE) \/
  leaves_of LEAF_NODES TREE 3 node = [].
Proof.
  destruct (in_dec string_dec node (dict_keys LEAF_NODES ++ dict_keys TREE))
    as [Hin|Hout]; [now left|right].
  assert (H1 : dict_get node LEAF_NODES = None).
  { apply dict_get_not_key. intros H. apply Hout, in_or_app. now left. }
  assert (H2 : dict_get node TREE = None).
  { apply dict_get_not_key. intros H. apply Hout, in_or_app. now right. }
  cbn [leaves_of]. unfold dict_mem. now rewrite H1, H2.
Qed.

(** X12. In the hierarchy of the module no leaf is below an account
    twice, and the leaves below the four roots are, in this order, all the
    leaves, once each. So on every complete snapshot the four branch
    totals add up to the sum of all the leaf values: no leaf is lost and
    none is counted twice. *)
Theorem branches_partition_the_leaves :
  forall (k : nat) (vals : list Z),
    (length LEAF_NODES <= length vals)%nat ->
    let lv := leaf_vals_of LEAF_NODES vals in
    (forall node, NoDup (leaves_of LEAF_NODES TREE 3 node)) /\
    flat_map (leaves_of LEAF_NODES TREE 3) ROOTS = dict_keys LEAF_NODES /\
    exists assets liabilities income expenses,
      total LEAF_NODES TREE lv (3 + k) "Assets" = Ret assets /\
      total LEAF_NODES TREE lv (3 + k) "Liabilities" = Ret liabilities /\
      total LEAF_NODES TREE lv (3 + k) "Income" = Ret income /\
      total LEAF_NODES TREE lv (3 + k) "Expenses" = Ret expenses /\
      assets + liabilities + income + expenses
      = fold_left Z.add (dict_values lv) 0.
Proof.
  intros k vals Hlen lv. subst lv. complete_snapshot Hlen.
  split; [|split; [reflexivity|]].
  - intros node. destruct (leaves_of_known node) as [Hin| ->]; [|constructor].
    simpl in Hin.
    repeat (destruct Hin as [<-|Hin];
            [cbn; repeat constructor; simpl; intuition discriminate|]).
    contradiction.
  - do 4 eexists. repeat (split; [cbn; reflexivity|]).
    cbn. lia.
Qed.

Lemma branches_partition_the_leaves_witness :
  (length LEAF_NODES <= length reference_values)%nat /\
  (forall node, NoDup (leaves_of LEAF_NODES TREE 3 node)) /\
  flat_map (leaves_of LEAF_NODES TREE 3) ROOTS = dict_keys LEAF_NODES /\
  exists assets liabilities income expenses,
    total LEAF_NODES TREE (leaf_vals_of LEAF_NODES reference_values) (3 + 0)
          "Assets" = Ret assets /\
    total LEAF_NODES TREE (leaf_vals_of LEAF_NODES reference_values) (3 + 0)
          "Liabilities" = Ret liabilities /\
    total LEAF_NODES TREE (leaf_vals_of LEAF_NODES reference_values) (3 + 0)
          "Income" = Ret income /\
    total LEAF_NODES TREE (leaf_vals_of LEAF_NODES reference_values) (3 + 0)
          "Expenses" = Ret expenses /\
    assets + liabilities + income + expenses
    = fold_left Z.add (dict_values (leaf_vals_of LEAF_NODES reference_values)) 0.
Proof.
  assert (H : (length LEAF_NODES <= length reference_values)%nat)
    by (simpl; lia).
  split; [exact H|].
  exact (branches_partition_the_leaves 0 reference_values H).
Defined.

(** ** The roll-up is linear in the leaf values *)

Lemma leaf_vals_of_fourteen (c ar inv ppe intg ap np ltd oi noi cogs sga dep ie : Z) :
  leaf_vals_of LEAF_NODES
    [c; ar; inv; ppe; intg; ap; np; ltd; oi; noi; cogs; sga; dep; ie]
  = snapshot c ar inv ppe intg ap np ltd oi noi cogs sga dep ie.
Proof. reflexivity. Qed.

(** Names the fourteen values of a list of that length. *)
Ltac fourteen vals H :=
  change (length LEAF_NODES) with 14%nat in H;
  do 14 (destruct vals as [|? vals]; [simpl in H; discriminate H|]);
  destruct vals; [clear H|simpl in H; discriminate H].

Ltac coefficients :=
  repeat match goal with
         | |- context [coefficient ?a ?b] =>
             let c := eval vm_compute in (coefficient a b) in
             change (coefficient a b) with c
         end.

(** X13. On a complete snapshot, adding [delta] to one leaf and
    leaving the others as they are adds [delta] to every account above
    that leaf, adds it to Equity for a leaf of Assets or Income, takes it
    from Equity for a leaf of Liabilities or Expenses, and changes no other
    computed value. *)
Theorem one_leaf_moves_its_ancestors_and_equity :
  forall (k : nat) (vals : list Z) (i : nat) (delta : Z),
    length vals = length LEAF_NODES ->
    (i < length LEAF_NODES)%nat ->
    let leaf := nth i (dict_keys LEAF_NODES) "" in
    let vals' := list_update i (nth i vals 0 + delta) vals in
    exists cv cv',
      computed_vals LEAF_NODES TREE computed_nodes
        (leaf_vals_of LEAF_NODES vals) (4 + k) = Ret cv /\
      computed_vals LEAF_NODES TREE computed_nodes
        (leaf_vals_of LEAF_NODES vals') (4 + k) = Ret cv' /\
      dict_keys cv' = dict_keys cv /\
      forall account v,
        dict_get account cv = Some v ->
        dict_get account cv' = Some (v + delta * coefficient leaf account).
Proof.
  intros k vals i delta Hlen Hi leaf vals'. subst leaf vals'.
  fourteen vals Hlen.
  change (length LEAF_NODES) with 14%nat in Hi.
  do 14 (destruct i as [|i];
         [cbn [list_update nth dict_keys LEAF_NODES map fst];
          rewrite !leaf_vals_of_fourteen, !computed_vals_snapshot;
          eexists; eexists; split; [reflexivity|]; split; [reflexivity|];
          split; [reflexivity|];
          intros account v Hv; apply dict_get_In in Hv;
          unfold rolled_up in Hv; cbn [In] in Hv;
          repeat (destruct Hv as [Hv|Hv]; [injection Hv as <- <-|]);
          [..|contradiction];
          coefficients; cbn [dict_get rolled_up String.eqb Ascii.eqb Bool.eqb];
          f_equal; lia
         |]).
  lia.
Qed.

Lemma one_leaf_moves_its_ancestors_and_equity_witness :
  length reference_values = length LEAF_NODES /\
  (3 < length LEAF_NODES)%nat /\
  exists cv cv',
    computed_vals LEAF_NODES TREE computed_nodes
      (leaf_vals_of LEAF_NODES reference_values) (4 + 0) = Ret cv /\
    computed_vals LEAF_NODES TREE computed_nodes
      (leaf_vals_of LEAF_NODES
         (list_update 3 (nth 3 reference_values 0 + 200000) reference_values))
      (4 + 0) = Ret cv' /\
    dict_keys cv' = dict_keys cv /\
    forall account v,
      dict_get account cv = Some v ->
      dict_get account cv'
      = Some (v + 200000 * coefficient (nth 3 (dict_keys LEAF_NODES) "") account).
Proof.
  assert (H1 : length reference_values = length LEAF_NODES) by reflexivity.
  assert (H2 : (3 < length LEAF_NODES)%nat) by (simpl; lia).
  split; [exact H1|]. split; [exact H2|].
  exact (one_leaf_moves_its_ancestors_and_equity 0 reference_values 3 200000
           H1 H2).
Defined.

(** X14. The roll-up is linear: on complete snapshots, the computed
    values of the sum of two assignments are the sums of their computed
    values, and the computed values of an assignment scaled by [c] are
    theirs scaled by [c]; Equity included. *)
Theorem roll_up_is_linear :
  forall (k : nat) (a b : list Z) (c : Z),
    length a = length LEAF_NODES ->
    length b = length LEAF_NODES ->
    exists cva cvb cvs cvc,
      computed_vals LEAF_NODES TREE computed_nodes
        (leaf_vals_of LEAF_NODES a) (4 + k) = Ret cva /\
      computed_vals LEAF_NODES TREE computed_nodes
        (leaf_vals_of LEAF_NODES b) (4 + k) = Ret cvb /\
      computed_vals LEAF_NODES TREE computed_nodes
        (leaf_vals_of LEAF_NODES (map (fun p => fst p + snd p) (combine a b)))
        (4 + k) = Ret cvs /\
      computed_vals LEAF_NODES TREE computed_nodes
        (leaf_vals_of LEAF_NODES (map (Z.mul c) a)) (4 + k) = Ret cvc /\
      forall account va vb,
        dict_get account cva = Some va ->
        dict_get account cvb = Some vb ->
        dict_get account cvs = Some (va + vb) /\
        dict_get account cvc = Some (c * va).
Proof.
  intros k a b c Ha Hb. fourteen a Ha. fourteen b Hb.
  cbn [combine map fst snd].
  rewrite !leaf_vals_of_fourteen, !computed_vals_snapshot.
  do 4 eexists. do 4 (split; [reflexivity|]).
  intros account va vb Hva Hvb.
  apply dict_get_In in Hva. unfold rolled_up in Hva. cbn [In] in Hva.
  repeat (destruct Hva as [Hva|Hva]; [injection Hva as <- <-|]);
    [..|contradiction];
    cbn [dict_get rolled_up String.eqb Ascii.eqb Bool.eqb] in Hvb |- *;
    injection Hvb as <-; split; f_equal; lia.
Qed.

Lemma roll_up_is_linear_witness :
  length reference_values = length LEAF_NODES /\
  length raised_values = length LEAF_NODES /\
  exists cva cvb cvs cvc,
    computed_vals LEAF_NODES TREE computed_nodes
      (leaf_vals_of LEAF_NODES reference_values) (4 + 0) = Ret cva /\
    computed_vals LEAF_NODES TREE computed_nodes
      (leaf_vals_of LEAF_NODES raised_values) (4 + 0) = Ret cvb /\
    computed_vals LEAF_NODES TREE computed_nodes
      (leaf_vals_of LEAF_NODES
         (map (fun p => fst p + snd p) (combine reference_values raised_values)))
      (4 + 0) = Ret cvs /\
    computed_vals LEAF_NODES TREE computed_nodes
      (leaf_vals_of LEAF_NODES (map (Z.mul 2) reference_values)) (4 + 0)
    = Ret cvc /\
    forall account va vb,
      dict_get account cva = Some va ->
      dict_get account cvb = Some vb ->
      dict_get account cvs = Some (va + vb) /\
      dict_get account cvc = Some (2 * va).
Proof.
  assert (H1 : length reference_values = length LEAF_NODES) by reflexivity.
  assert (H2 : length raised_values = length LEAF_NODES) by reflexivity.
  split; [exact H1|]. split; [exact H2|].
  exact (roll_up_is_linear 0 reference_values raised_values 2 H1 H2).
Defined.

(** ** The range of the computed values *)

Lemma snapshot_in_range (lo hi : Z)
    (c ar inv ppe intg ap np ltd oi noi cogs sga dep ie : Z) :
  Forall (fun v => lo <= v <= hi)
    (dict_values (snapshot c ar inv ppe intg ap np ltd oi noi cogs sga dep ie)) ->
  (lo <= c <= hi) /\ (lo <= ar <= hi) /\ (lo <= inv <= hi) /\
  (lo <= ppe <= hi) /\ (lo <= intg <= hi) /\ (lo <= ap <= hi) /\
  (lo <= np <= hi) /\ (lo <= ltd <= hi) /\ (lo <= oi <= hi) /\
  (lo <= noi <= hi) /\ (lo <= cogs <= hi) /\ (lo <= sga <= hi) /\
  (lo <= dep <= hi) /\ (lo <= ie <= hi).
Proof.
  intros H. cbn [dict_values snapshot map snd] in H.
  repeat match goal with
         | H : Forall _ (_ :: _) |- _ => inversion_clear H
         end.
  repeat split; lia.
Qed.

Ltac leaf_counts :=
  repeat match goal with
         | |- context [Z.of_nat (length (leaves_of LEAF_NODES TREE 3 ?a))] =>
             let n := eval vm_compute in
                        (Z.of_nat (length (leaves_of LEAF_NODES TREE 3 a))) in
             change (Z.of_nat (length (leaves_of LEAF_NODES TREE 3 a))) with n
         end.

(** X15. Every slider, of a leaf or of a computed node, has the range
    0 to 200000. With every leaf value in that range, a computed total
    lies between 0 and 200000 times the number of leaves below its account,
    and Equity between -1400000 and 1400000. These bounds are reached, so
    the value the callback sends to a computed slider can be outside the
    range of that slider: above its maximum for Assets, below its minimum
    for Equity. *)
Theorem computed_values_can_leave_the_slider_range :
  forall (k : nat) (vals : list Z),
    (length LEAF_NODES <= length vals)%nat ->
    let lv := leaf_vals_of LEAF_NODES vals in
    Forall (fun v => 0 <= v <= 200000) (dict_values lv) ->
    (forall nid value disabled,
        slider_min (div_slider (slider nid value disabled)) = 0 /\
        slider_max (div_slider (slider nid value disabled)) = 200000) /\
    (exists cv,
        computed_vals LEAF_NODES TREE computed_nodes lv (4 + k) = Ret cv /\
        forall account v,
          dict_get account cv = Some v ->
          (account <> "Equity" ->
           0 <= v
           <= 200000 * Z.of_nat (length (leaves_of LEAF_NODES TREE 3 account))) /\
          (account = "Equity" -> -1400000 <= v <= 1400000)) /\
    (exists cv,
        computed_vals LEAF_NODES TREE computed_nodes
          (leaf_vals_of LEAF_NODES (repeat 200000 14)) (4 + k) = Ret cv /\
        dict_get "Assets" cv = Some 1000000) /\
    (exists cv,
        computed_vals LEAF_NODES TREE computed_nodes
          (leaf_vals_of LEAF_NODES
             (repeat 0 5 ++ repeat 200000 3 ++ repeat 0 2 ++ repeat 200000 4))
          (4 + k) = Ret cv /\
        dict_get "Equity" cv = Some (-1400000)).
Proof.
  intros k vals Hlen lv. subst lv. complete_snapshot Hlen. intros Hr.
  apply snapshot_in_range in Hr.
  split; [intros; split; reflexivity|]. split; [|split].
  - eexists. split; [apply computed_vals_snapshot|].
    intros account v Hv. apply dict_get_In in Hv.
    unfold rolled_up in Hv. cbn [In] in Hv.
    repeat (destruct Hv as [Hv|Hv]; [injection Hv as <- <-|]);
      [..|contradiction];
      (split; [intros Hne; try (now destruct Hne); leaf_counts; lia
              |intros E; try discriminate E; lia]).
  - eexists. cbn [repeat]. rewrite leaf_vals_of_fourteen.
    split; [apply computed_vals_snapshot|reflexivity].
  - eexists. cbn [repeat app]. rewrite leaf_vals_of_fourteen.
    split; [apply computed_vals_snapshot|reflexivity].
Qed.

Lemma computed_values_can_leave_the_slider_range_witness :
  (length LEAF_NODES <= length reference_values)%nat /\
  Forall (fun v => 0 <= v <= 200000)
         (dict_values (leaf_vals_of LEAF_NODES reference_values)) /\
  (forall nid value disabled,
      slider_min (div_slider (slider nid value disabled)) = 0 /\
      slider_max (div_slider (slider nid value disabled)) = 200000) /\
  (exists cv,
      computed_vals LEAF_NODES TREE computed_nodes
        (leaf_vals_of LEAF_NODES reference_values) (4 + 0) = Ret cv /\
      forall account v,
        dict_get account cv = Some v ->
        (account <> "Equity" ->
         0 <= v
         <= 200000 * Z.of_nat (length (leaves_of LEAF_NODES TREE 3 account))) /\
        (account = "Equity" -> -1400000 <= v <= 1400000)) /\
  (exists cv,
      computed_vals LEAF_NODES TREE computed_nodes
        (leaf_vals_of LEAF_NODES (repeat 200000 14)) (4 + 0) = Ret cv /\
      dict_get "Assets" cv = Some 1000000) /\
  (exists cv,
      computed_vals LEAF_NODES TREE computed_nodes
        (leaf_vals_of LEAF_NODES
           (repeat 0 5 ++ repeat 200000 3 ++ repeat 0 2 ++ repeat 200000 4))
        (4 + 0) = Ret cv /\
      dict_get "Equity" cv = Some (-1400000)).
Proof.
  assert (H1 : (length LEAF_NODES <= length reference_values)%nat)
    by (simpl; lia).
  assert (H2 : Forall (fun v => 0 <= v <= 200000)
                      (dict_values (leaf_vals_of LEAF_NODES reference_values)))
    by (cbn; repeat (apply Forall_cons; [lia|]); apply Forall_nil).
  split; [exact H1|]. split; [exact H2|].
  exact (computed_values_can_leave_the_slider_range 0 reference_values H1 H2).
Defined.

(** ** Weights and sizes *)

Lemma inject_Z_nonzero (m : Z) : m <> 0 -> ~ (inject_Z m == 0)%Q.
Proof. intros H E. apply H. now apply (inject_Z_injective m 0). Qed.

Lemma ratio_scale (c v m : Z) :
  c <> 0 -> m <> 0 ->
  (inject_Z (c * v) / inject_Z (c * m) == inject_Z v / inject_Z m)%Q.
Proof.
  intros Hc Hm. rewrite !inject_Z_mult. field.
  split; now apply inject_Z_nonzero.
Qed.

Lemma ratio_opp (v d : Z) :
  d <> 0 -> (inject_Z v / inject_Z d == inject_Z (- v) / inject_Z (- d))%Q.
Proof.
  intros Hd. rewrite !inject_Z_opp. field. now apply inject_Z_nonzero.
Qed.

Lemma ratio_mono (v1 v2 d : Z) :
  0 < d -> v1 <= v2 -> (inject_Z v1 / inject_Z d <= inject_Z v2 / inject_Z d)%Q.
Proof.
  intros Hd Hv. unfold Qdiv. apply Qmult_le_compat_r.
  - now rewrite <- Zle_Qle.
  - apply Qinv_le_0_compat. change 0%Q with (inject_Z 0).
    rewrite <- Zle_Qle. lia.
Qed.

Lemma ratio_antimono (v1 v2 d : Z) :
  d < 0 -> v1 <= v2 -> (inject_Z v2 / inject_Z d <= inject_Z v1 / inject_Z d)%Q.
Proof.
  intros Hd Hv.
  rewrite (ratio_opp v1 d), (ratio_opp v2 d) by lia.
  apply ratio_mono; lia.
Qed.

Lemma node_size_mono (r1 r2 : Q) :
  (r1 <= r2)%Q -> (node_size r1 <= node_size r2)%Q.
Proof.
  intros H. unfold node_size. apply Qplus_le_r.
  apply Qmult_le_compat_r; [exact H|discriminate].
Qed.

Lemma fold_max_scale (c : Z) (l : list Z) (x : Z) :
  0 <= c ->
  fold_left Z.max (map (Z.mul c) l) (c * x) = c * fold_left Z.max l x.
Proof.
  intros Hc. revert x. induction l as [|y l IH]; intros x; simpl.
  - reflexivity.
  - rewrite Z.mul_max_distr_nonneg_l by exact Hc. apply IH.
Qed.

Lemma greatest_scale (c : Z) (lv cv lv' cv' : dict Z) :
  0 <= c ->
  all_values lv' cv' = map (Z.mul c) (all_values lv cv) ->
  greatest lv' cv' = c * greatest lv cv.
Proof.
  intros Hc H. unfold greatest. rewrite H.
  destruct (all_values lv cv) as [|x rest]; simpl; [lia|].
  now apply fold_max_scale.
Qed.

(** X16. The weights depend on the proportions of the values only: on
    a complete snapshot whose maximum is not 0, multiplying every leaf
    value by the same positive number multiplies every computed value by
    it and leaves the weight of every account as it was. *)
Theorem weights_are_scale_invariant :
  forall (k : nat) (vals : list Z) (c : Z),
    length vals = length LEAF_NODES ->
    0 < c ->
    exists cv ws cv' ws' m,
      recompute (4 + k) (leaf_vals_of LEAF_NODES vals) = Ret (cv, ws) /\
      recompute (4 + k) (leaf_vals_of LEAF_NODES (map (Z.mul c) vals))
      = Ret (cv', ws') /\
      py_max (all_values (leaf_vals_of LEAF_NODES vals) cv) = Ret m /\
      py_max (all_values (leaf_vals_of LEAF_NODES (map (Z.mul c) vals)) cv')
      = Ret (c * m) /\
      (forall account v,
          dict_get account cv = Some v ->
          dict_get account cv' = Some (c * v)) /\
      (m <> 0 ->
       forall account w,
         dict_get account ws = Some w ->
         exists w', dict_get account ws' = Some w' /\ (w' == w)%Q).
Proof.
  intros k vals c Hlen Hc. fourteen vals Hlen. cbn [map].
  rewrite !leaf_vals_of_fourteen.
  set (lv := snapshot z z0 z1 z2 z3 z4 z5 z6 z7 z8 z9 z10 z11 z12).
  set (cv := rolled_up z z0 z1 z2 z3 z4 z5 z6 z7 z8 z9 z10 z11 z12).
  set (lv' := snapshot (c * z) (c * z0) (c * z1) (c * z2) (c * z3) (c * z4)
                (c * z5) (c * z6) (c * z7) (c * z8) (c * z9) (c * z10)
                (c * z11) (c * z12)).
  set (cv' := rolled_up (c * z) (c * z0) (c * z1) (c * z2) (c * z3) (c * z4)
                (c * z5) (c * z6) (c * z7) (c * z8) (c * z9) (c * z10)
                (c * z11) (c * z12)).
  assert (Hall : all_values lv' cv' = map (Z.mul c) (all_values lv cv)).
  { subst lv cv lv' cv'. unfold all_values, snapshot, rolled_up.
    cbn [dict_values map snd app].
    repeat (apply (f_equal2 cons); [lia|]). reflexivity. }
  assert (Hg : greatest lv' cv' = c * greatest lv cv)
    by (apply (greatest_scale c lv cv lv' cv'); [lia|exact Hall]).
  exists cv, (ratios (or_1 (greatest lv cv)) (lv ++ cv)),
         cv', (ratios (or_1 (greatest lv' cv')) (lv' ++ cv')), (greatest lv cv).
  split; [apply recompute_snapshot|]. split; [apply recompute_snapshot|].
  split; [apply py_max_snapshot|].
  split; [rewrite <- Hg; apply py_max_snapshot|].
  split.
  - intros account v Hv. apply dict_get_In in Hv. subst cv cv'.
    unfold rolled_up in Hv. cbn [In] in Hv.
    repeat (destruct Hv as [Hv|Hv]; [injection Hv as <- <-|]);
      [..|contradiction];
      cbn [dict_get rolled_up String.eqb Ascii.eqb Bool.eqb];
      f_equal; lia.
  - intros Hm account w Hw.
    apply weight_of_account in Hw. destruct Hw as (v & Hv & ->).
    exists (inject_Z (c * v) / inject_Z (or_1 (greatest lv' cv')))%Q.
    split.
    + rewrite dict_get_ratios.
      assert (Hv' : dict_get account (lv' ++ cv') = Some (c * v)).
      { apply dict_get_In in Hv. subst lv cv lv' cv'.
        each_account Hv;
          cbn [dict_get snapshot rolled_up app String.eqb Ascii.eqb Bool.eqb];
          f_equal; lia. }
      now rewrite Hv'.
    + rewrite Hg. unfold or_1.
      assert (E1 : (greatest lv cv =? 0) = false) by now apply Z.eqb_neq.
      assert (E2 : (c * greatest lv cv =? 0) = false) by (apply Z.eqb_neq; lia).
      rewrite E1, E2. apply ratio_scale; lia.
Qed.

Lemma weights_are_scale_invariant_witness :
  length reference_values = length LEAF_NODES /\
  0 < 3 /\
  exists cv ws cv' ws' m,
    recompute (4 + 0) (leaf_vals_of LEAF_NODES reference_values) = Ret (cv, ws) /\
    recompute (4 + 0) (leaf_vals_of LEAF_NODES (map (Z.mul 3) reference_values))
    = Ret (cv', ws') /\
    py_max (all_values (leaf_vals_of LEAF_NODES reference_values) cv) = Ret m /\
    py_max
      (all_values (leaf_vals_of LEAF_NODES (map (Z.mul 3) reference_values)) cv')
    = Ret (3 * m) /\
    (forall account v,
        dict_get account cv = Some v ->
        dict_get account cv' = Some (3 * v)) /\
    (m <> 0 ->
     forall account w,
       dict_get account ws = Some w ->
       exists w', dict_get account ws' = Some w' /\ (w' == w)%Q).
Proof.
  assert (H1 : length reference_values = length LEAF_NODES) by reflexivity.
  assert (H2 : 0 < 3) by lia.
  split; [exact H1|]. split; [exact H2|].
  exact (weights_are_scale_invariant 0 reference_values 3 H1 H2).
Defined.

(** X17. On a complete snapshot the size of a node follows the value
    of its account. When the maximum is 0 or more, a greater value gives
    a size at least as great; with no negative leaf value every size is at
    most 100 and the size of every account but Equity at least 30. When
    the maximum is negative the divisor is negative: a greater value then
    gives a smaller size, and every size is at least 100. *)
Theorem node_sizes_follow_the_values :
  forall (k : nat) (vals : list Z),
    (length LEAF_NODES <= length vals)%nat ->
    let lv := leaf_vals_of LEAF_NODES vals in
    exists cv ws m,
      recompute (4 + k) lv = Ret (cv, ws) /\
      py_max (all_values lv cv) = Ret m /\
      (forall a b va vb wa wb,
          value_after lv cv a = Some va -> dict_get a ws = Some wa ->
          value_after lv cv b = Some vb -> dict_get b ws = Some wb ->
          va <= vb ->
          (0 <= m -> (node_size wa <= node_size wb)%Q) /\
          (m < 0 -> (node_size wb <= node_size wa)%Q)) /\
      (Forall (fun v => 0 <= v) (dict_values lv) ->
       forall account w,
         dict_get account ws = Some w ->
         (node_size w <= 100)%Q /\
         (account <> "Equity" -> (30 <= node_size w)%Q)) /\
      (m < 0 ->
       forall account w, dict_get account ws = Some w -> (100 <= node_size w)%Q).
Proof.
  intros k vals Hlen lv. subst lv. complete_snapshot Hlen.
  set (lv := snapshot _ _ _ _ _ _ _ _ _ _ _ _ _ _) in *.
  set (cv := rolled_up c ar inv ppe intg ap np ltd oi noi cogs sga dep ie).
  exists cv, (ratios (or_1 (greatest lv cv)) (lv ++ cv)), (greatest lv cv).
  split; [apply recompute_snapshot|]. split; [apply py_max_snapshot|].
  assert (Hval : forall a, value_after lv cv a = dict_get a (lv ++ cv)).
  { intros a. unfold value_after. subst lv cv. now rewrite merge_snapshot. }
  assert (Hup : forall a v, dict_get a (lv ++ cv) = Some v -> v <= greatest lv cv).
  { intros a v Hv. apply greatest_upper. subst lv cv.
    rewrite all_values_snapshot. eapply dict_get_value, Hv. }
  split; [|split].
  - intros a b va vb wa wb Hva Hwa Hvb Hwb Hle.
    rewrite Hval in Hva, Hvb.
    apply weight_of_account in Hwa. destruct Hwa as (va' & Hva' & ->).
    apply weight_of_account in Hwb. destruct Hwb as (vb' & Hvb' & ->).
    assert (va' = va) by congruence. assert (vb' = vb) by congruence.
    subst va' vb'. split; intros Hm; apply node_size_mono.
    + rewrite or_1_of_nonneg by exact Hm. apply ratio_mono; lia.
    + rewrite or_1_of_negative by exact Hm. now apply ratio_antimono.
  - intros Hpos account w Hw.
    apply weight_of_account in Hw. destruct Hw as (v & Hv & ->).
    pose proof (greatest_nonneg c ar inv ppe intg ap np ltd oi noi cogs sga dep
                                ie Hpos) as Hm.
    cbv zeta in Hm. fold lv cv in Hm.
    rewrite or_1_of_nonneg by exact Hm. split.
    + apply Qle_trans with (node_size 1); [|discriminate].
      apply node_size_mono. apply ratio_le_1; [lia|].
      specialize (Hup account v Hv). lia.
    + intros Hne. apply Qle_trans with (node_size 0); [discriminate|].
      apply node_size_mono. apply ratio_nonneg; [lia|].
      apply (values_nonneg c ar inv ppe intg ap np ltd oi noi cogs sga dep ie
               Hpos account v); [now apply dict_get_In|exact Hne].
  - intros Hm account w Hw.
    apply weight_of_account in Hw. destruct Hw as (v & Hv & ->).
    rewrite or_1_of_negative by exact Hm.
    apply Qle_trans with (node_size 1); [discriminate|].
    apply node_size_mono.
    apply Qle_trans
      with (inject_Z (greatest lv cv) / inject_Z (greatest lv cv))%Q.
    + rewrite ratio_self by lia. apply Qle_refl.
    + apply ratio_antimono; [exact Hm|]. exact (Hup account v Hv).
Qed.

Lemma node_sizes_follow_the_values_witness :
  (length LEAF_NODES <= length payables_only)%nat /\
  exists cv ws m,
    recompute (4 + 0) (leaf_vals_of LEAF_NODES payables_only) = Ret (cv, ws) /\
    py_max (all_values (leaf_vals_of LEAF_NODES payables_only) cv) = Ret m /\
    (forall a b va vb wa wb,
        value_after (leaf_vals_of LEAF_NODES payables_only) cv a = Some va ->
        dict_get a ws = Some wa ->
        value_after (leaf_vals_of LEAF_NODES payables_only) cv b = Some vb ->
        dict_get b ws = Some wb ->
        va <= vb ->
        (0 <= m -> (node_size wa <= node_size wb)%Q) /\
        (m < 0 -> (node_size wb <= node_size wa)%Q)) /\
    (Forall (fun v => 0 <= v)
            (dict_values (leaf_vals_of LEAF_NODES payables_only)) ->
     forall account w,
       dict_get account ws = Some w ->
       (node_size w <= 100)%Q /\
       (account <> "Equity" -> (30 <= node_size w)%Q)) /\
    (m < 0 ->
     forall account w, dict_get account ws = Some w -> (100 <= node_size w)%Q).
Proof.
  assert (H : (length LEAF_NODES <= length payables_only)%nat) by (simpl; lia).
  split; [exact H|].
  exact (node_sizes_follow_the_values 0 payables_only H).
Defined.

(** X18. In a well-formed state with the module loaded, when the
    engine gives its two maps the callback shows: a stylesheet that is the
    rules of the base stylesheet, in their order, followed by one rule per
    account in the order of the weights, the rule of line 210 with the
    same size for width and height; and the computed values in the order
    of [computed_nodes]. The base stylesheet itself reads as before. *)
Theorem call_shows_base_rules_then_sizes :
  forall (fuel : nat) (vals : list Z) (w : world) (cv : dict Z) (ws : dict Q),
    loaded w ->
    wf_world w ->
    recompute fuel (leaf_vals_of LEAF_NODES vals) = Ret (cv, ws) ->
    exists base_rules_read outs,
      read_list (heap w) (g_stylesheet w) = Some base_rules_read /\
      observe (update_graph_and_totals fuel vals w)
      = Ret (Some (base_rules_read
                   ++ map (fun kw =>
                             Some (size_rule (fst kw) (node_size (snd kw))))
                          ws),
             outs) /\
      map Some outs = map (fun n => dict_get n cv) computed_nodes /\
      read_list (heap (fst (update_graph_and_totals fuel vals w)))
                (g_stylesheet w)
      = Some base_rules_read.
Proof.
  intros fuel vals w cv ws Hl (base & Hbase & Hlocs) Hr.
  destruct (update_returns_recompute fuel vals w base cv ws Hl Hbase Hr)
    as (outs & Hmap & Hu).
  exists (map (nth_error (heap w)) base), outs.
  split; [unfold read_list; now rewrite Hbase|].
  rewrite Hu. unfold observe. cbn [fst snd set_heap heap].
  pose proof (read_new_stylesheet (heap w) []
                (map (fun kw => size_rule (fst kw) (node_size (snd kw))) ws)
                base Hlocs) as Hread.
  rewrite app_nil_r, length_map, map_map in Hread.
  split; [now rewrite Hread|]. split; [exact Hmap|].
  unfold read_list.
  rewrite nth_error_app1 by (apply nth_error_Some; rewrite Hbase; discriminate).
  rewrite Hbase. f_equal. apply map_ext_in. intros l Hin.
  rewrite Forall_forall in Hlocs. now apply nth_error_app1, Hlocs.
Qed.

Lemma call_shows_base_rules_then_sizes_witness :
  loaded module_world /\
  wf_world module_world /\
  exists cv ws,
    recompute 4 (leaf_vals_of LEAF_NODES reference_values) = Ret (cv, ws) /\
    exists base_rules_read outs,
      read_list (heap module_world) (g_stylesheet module_world)
      = Some base_rules_read /\
      observe (update_graph_and_totals 4 reference_values module_world)
      = Ret (Some (base_rules_read
                   ++ map (fun kw =>
                             Some (size_rule (fst kw) (node_size (snd kw))))
                          ws),
             outs) /\
      map Some outs = map (fun n => dict_get n cv) computed_nodes /\
      read_list
        (heap (fst (update_graph_and_totals 4 reference_values module_world)))
        (g_stylesheet module_world)
      = Some base_rules_read.
Proof.
  assert (Hl : loaded module_world) by (repeat split).
  assert (Hwf : wf_world module_world).
  { exists (seq 0 (length base_rules)). split; [reflexivity|].
    apply Forall_forall. intros l Hin. apply in_seq in Hin. cbn in *. lia. }
  split; [exact Hl|]. split; [exact Hwf|].
  eexists. eexists.
  assert (Hr : recompute 4 (leaf_vals_of LEAF_NODES reference_values)
               = Ret (rolled_up 10000 12000 8000 40000 5000 7000 6000 20000
                                15000 3000 9000 4000 2000 1000,
                      ratios 75000
                             (snapshot 10000 12000 8000 40000 5000 7000 6000
                                       20000 15000 3000 9000 4000 2000 1000
                              ++ rolled_up 10000 12000 8000 40000 5000 7000
                                           6000 20000 15000 3000 9000 4000
                                           2000 1000)))
    by reflexivity.
  split; [exact Hr|].
  exact (call_shows_base_rules_then_sizes 4 reference_values module_world _ _
           Hl Hwf Hr).
Defined.

(** ** Failing calls *)

Lemma Forall_slice_last {A : Type} (P : A -> Prop) (n : nat) (l : list A) :
  Forall P l -> Forall P (slice_last n l).
Proof.
  intros H. destruct n; [exact H|]. unfold slice_last.
  rewrite <- (firstn_skipn (length l - S n) l) in H.
  now apply Forall_app in H.
Qed.

Lemma Forall_leaf_values (P : Z -> Prop) (vals : list Z) :
  Forall P vals -> Forall P (dict_values (leaf_vals_of LEAF_NODES vals)).
Proof.
  intros H. rewrite (leaf_vals_of_combine _ _ LEAF_NODES_keys_NoDup).
  unfold dict_values. rewrite combine_values.
  apply (Forall_slice_last P (length LEAF_NODES)) in H.
  rewrite <- (firstn_skipn (length (dict_keys LEAF_NODES))
                           (slice_last (length LEAF_NODES) vals)) in H.
  now apply Forall_app in H.
Qed.

(** X10. With the module loaded and every argument of a magnitude of
    at most 1e300, a call that does not return a result has changed
    nothing: it has failed before the copy of line 206. The bound keeps
    the divisions of line 209 within the range of a double: on a complete
    snapshot the divisor is not 0 and no value is more than 14e300 times
    the divisor in magnitude, so that the quotient cannot overflow. *)
Theorem failed_call_changes_nothing :
  forall (fuel : nat) (vals : list Z) (w : world),
    loaded w ->
    Forall (fun v => Z.abs v <= 10 ^ 300) vals ->
    let lv := leaf_vals_of LEAF_NODES vals in
    ((length LEAF_NODES <= length vals)%nat ->
     forall cv mv account v,
       computed_vals LEAF_NODES TREE computed_nodes lv fuel = Ret cv ->
       max_val lv cv = Ret mv ->
       value_after lv cv account = Some v ->
       mv <> 0 /\ Z.abs v <= 14 * 10 ^ 300 * Z.abs mv) /\
    ((forall x, snd (update_graph_and_totals fuel vals w) <> Ret x) ->
     fst (update_graph_and_totals fuel vals w) = w).
Proof.
  intros fuel vals w Hl Hb lv. split.
  - intros Hlen cv mv account v Hcv Hmv Hv.
    apply (Forall_leaf_values _ vals) in Hb. subst lv.
    complete_snapshot Hlen.
    remember (10 ^ 300) as B eqn:EB. clear EB.
    assert (Hr : Forall (fun v => - B <= v <= B)
                   (dict_values
                      (snapshot c ar inv ppe intg ap np ltd oi noi cogs sga dep
                                ie))).
    { eapply Forall_impl; [|exact Hb]. simpl. intros a Ha. lia. }
    apply snapshot_in_range in Hr.
    destruct fuel as [|[|[|[|k]]]];
      try (cbn in Hcv; discriminate Hcv).
    change (S (S (S (S k)))) with (4 + k)%nat in Hcv.
    rewrite computed_vals_snapshot in Hcv. injection Hcv as <-.
    unfold max_val in Hmv. rewrite py_max_snapshot in Hmv.
    cbn [obind] in Hmv. injection Hmv as <-.
    set (d := or_1 _).
    assert (Hd : d <> 0) by apply or_1_nonzero.
    split; [exact Hd|].
    assert (Hk : 14 * B <= 14 * B * Z.abs d) by nia.
    unfold value_after in Hv. rewrite merge_snapshot in Hv.
    apply dict_get_In in Hv. each_account Hv; lia.
  - intros H. rewrite update_eq in H |- *. cbv zeta in H |- *.
    destruct (computed_vals _ _ _ _ fuel) as [cv| |] eqn:Hcv; try reflexivity.
    destruct (py_max _) as [m| |]; try reflexivity.
    destruct (nth_error (heap w) (g_stylesheet w)) as [[? ?|base]|];
      try reflexivity.
    destruct (getitems_ret cv (g_computed_nodes w)) as (outs & Hout & _).
    { intros n Hin. unfold computed_vals in Hcv.
      apply (dict_comp_keys _ _ _ _ _ _ _ Hcv). now left. }
    exfalso. cbn [snd] in H. rewrite Hout in H. cbn [obind] in H.
    now apply (H (length (heap w), outs)).
Qed.

Lemma failed_call_changes_nothing_witness :
  loaded module_world /\
  Forall (fun v => Z.abs v <= 10 ^ 300) twelve_values /\
  (forall x,
      snd (update_graph_and_totals 4 twelve_values module_world) <> Ret x) /\
  fst (update_graph_and_totals 4 twelve_values module_world) = module_world.
Proof.
  assert (Hl : loaded module_world) by (repeat split).
  assert (Hb : Forall (fun v => Z.abs v <= 10 ^ 300) twelve_values).
  { unfold twelve_values.
    assert (H : 40000 <= 10 ^ 300) by (apply Z.leb_le; vm_compute; reflexivity).
    repeat (apply Forall_cons; [lia|]). apply Forall_nil. }
  assert (Hf : forall x,
             snd (update_graph_and_totals 4 twelve_values module_world)
             <> Ret x).
  { intros x. vm_compute. discriminate. }
  split; [exact Hl|]. split; [exact Hb|]. split; [exact Hf|].
  exact (proj2 (failed_call_changes_nothing 4 twelve_values module_world Hl Hb)
               Hf).
Defined.
